(** * fixr: the FIXR API client (client.go)

    A shallow embedding of [client.go] and the properties of its request
    dispatcher, response envelope and booking rules.

    Conventions of the embedding.
    - Go [int] is [Z]; the code only compares and prints integers.
    - Go [float64] is the kernel's binary64 [float].
    - Go [string] is [string]; [len(s) > 0] is non-emptiness.
    - A result pair (pointer, error) is a pair of options: [None] is [nil].
    - A method with a pointer receiver returns the updated receiver.
    - Everything the file calls but does not define (the HTTP transport, the
      JSON codec, [jsonifyPayload], [genKey]) and everything the language
      leaves open (the order of a map range, the order in which the entries
      of a map literal are stored) is a field of the class [Env]; every
      theorem holds for every [Env].
    - The model covers calls that do not panic: a non-nil ticket pointer and a
      [Client] whose [httpClient] is set, as [NewClient] builds it. *)

From Stdlib Require Import ZArith String Ascii List Floats.
From stdpp Require Import base option list gmap strings pretty.

Set Warnings "-register-all".

Local Open Scope string_scope.
Local Open Scope Z_scope.

(** ** Errors ([error], [errors.New], [errors.Wrap], [fmt.Errorf]) *)

Inductive err : Type :=
| errors_New (msg : string)
| errors_Wrap (cause : err) (msg : string).

(** [e.Error()]: pkg/errors renders a wrapped error as [msg: cause]. *)
Fixpoint Error_string (e : err) : string :=
  match e with
  | errors_New msg => msg
  | errors_Wrap cause msg => msg +:+ ": " +:+ Error_string cause
  end.

(** [strings.Contains s sub]. *)
Fixpoint Contains (s sub : string) : bool :=
  String.prefix sub s ||
  match s with
  | EmptyString => false
  | String _ s' => Contains s' sub
  end.

Definition mentions (e : err) (sub : string) : Prop :=
  Contains (Error_string e) sub = true.

(** ** Constants and package variables *)

Definition homeURL := "https://fixr.co".
Definition bookingURL := "https://api.fixr-app.com/api/v2/app/booking".
Definition promoURL_prefix := "https://api.fixr-app.com/api/v2/app/promo_code/".
Definition loginURL :=
  "https://api.fixr-app.com/api/v2/app/user/authenticate/with-email".
Definition eventURL_prefix := "https://api.fixr-app.com/api/v2/app/event/".
Definition cardURL := "https://api.stripe.com/v1/tokens".
Definition tokenURL := "https://api.fixr-app.com/api/v2/app/stripe".
Definition meURL := "https://api.fixr-app.com/api/v2/app/user/me".

(** [fmt.Sprintf(eventURL, id)] and [fmt.Sprintf(promoURL, ticketID, code)]. *)
Definition eventURL (id : Z) : string := eventURL_prefix +:+ pretty id.
Definition promoURL (ticketID : Z) (code : string) : string :=
  promoURL_prefix +:+ pretty ticketID +:+ "/" +:+ code.

(** ** Payloads: [type payload map[string]interface{}] *)

Inductive value : Type :=
| VInt (z : Z)
| VStr (s : string).

Abbreviation payload := (gmap string value).

Definition Buffer := string.

(** ** The response types *)

Module apiError.
Record t := mk { Error : string }.
End apiError.

(** A JSON document after lexing.  A number literal carries its value as an
    integer, when it is an integer literal, and as the nearest binary64. *)
Inductive json : Type :=
| JNull
| JBool (b : bool)
| JNum (int_value : option Z) (float_value : float)
| JStr (s : string)
| JArr (elems : list json)
| JObj (members : list (string * json)).

(** Modelled from the spec: [stripeUser] is declared outside client.go; the
    spec calls it an opaque pass-through, so it is an uninterpreted token that
    keeps the JSON object it was decoded from. *)
Inductive stripeUser : Type := StripeUserData (raw : json).

Module Client.
Record t := mk {
  apiError_ : apiError.t;
  Email : string;
  FirstName : string;
  LastName : string;
  MagicURL : string;
  AuthToken : string;
  StripeUser : option stripeUser
}.
End Client.

Module Ticket.
Record t := mk {
  ID : Z;
  Name : string;
  Type_ : Z;
  Currency : string;
  Price : float;
  BookingFee : float;
  Max : Z;
  SoldOut : bool;
  Expired : bool;
  Invalid : bool
}.
End Ticket.

Module Event.
Record t := mk {
  ID : Z;
  Name : string;
  Tickets : list Ticket.t;
  Error : string
}.
End Event.

Module PromoCode.
Record t := mk {
  apiError_ : apiError.t;
  Code : string;
  Price : float;
  BookingFee : float;
  Currency : string;
  Max : Z;
  Remaining : Z
}.
End PromoCode.

Module Booking.
Record t := mk {
  apiError_ : apiError.t;
  Event_ : Event.t;
  Name : string;
  PDF : string;
  State : Z
}.
End Booking.

(** Zero values: [Event{}], [PromoCode{}], [Booking{}]. *)
Definition apiError_zero : apiError.t := apiError.mk "".
Definition Event_zero : Event.t := Event.mk 0 "" [] "".
Definition PromoCode_zero : PromoCode.t :=
  PromoCode.mk apiError_zero "" 0%float 0%float "" 0 0.
Definition Booking_zero : Booking.t :=
  Booking.mk apiError_zero Event_zero "" "" 0.

(** [NewClient(email)]. *)
Definition NewClient (email : string) : Client.t :=
  Client.mk apiError_zero email "" "" "" "" None.


(** ** The envelope contract: [type responseParams interface] *)

Class responseParams (T : Type) := {
  error : T -> option err;
  clearError : T -> T
}.

(** [func (a *apiError) error() error] and [clearError()]. *)
Definition apiError_error (a : apiError.t) : option err :=
  if (0 <? String.length (apiError.Error a))%nat
  then Some (errors_New (apiError.Error a))
  else None.

Definition apiError_clearError (a : apiError.t) : apiError.t :=
  apiError.mk "".

#[export] Instance apiError_responseParams : responseParams apiError.t :=
  {| error := apiError_error; clearError := apiError_clearError |}.

(** [func (e *Event) error() error] and [clearError()]. *)
Definition Event_error (e : Event.t) : option err :=
  if (0 <? String.length (Event.Error e))%nat
  then Some (errors_New (Event.Error e))
  else None.

Definition Event_clearError (e : Event.t) : Event.t :=
  Event.mk (Event.ID e) (Event.Name e) (Event.Tickets e) "".

#[export] Instance Event_responseParams : responseParams Event.t :=
  {| error := Event_error; clearError := Event_clearError |}.

(** [Client], [PromoCode] and [Booking] embed [apiError]: its two methods are
    promoted and act on the embedded field. *)
Definition Client_set_apiError (c : Client.t) (a : apiError.t) : Client.t :=
  Client.mk a (Client.Email c) (Client.FirstName c) (Client.LastName c)
    (Client.MagicURL c) (Client.AuthToken c) (Client.StripeUser c).

Definition PromoCode_set_apiError (p : PromoCode.t) (a : apiError.t)
  : PromoCode.t :=
  PromoCode.mk a (PromoCode.Code p) (PromoCode.Price p)
    (PromoCode.BookingFee p) (PromoCode.Currency p) (PromoCode.Max p)
    (PromoCode.Remaining p).

Definition Booking_set_apiError (b : Booking.t) (a : apiError.t) : Booking.t :=
  Booking.mk a (Booking.Event_ b) (Booking.Name b) (Booking.PDF b)
    (Booking.State b).

#[export] Instance Client_responseParams : responseParams Client.t :=
  {| error := fun c => error (Client.apiError_ c);
     clearError := fun c =>
       Client_set_apiError c (clearError (Client.apiError_ c)) |}.

#[export] Instance PromoCode_responseParams : responseParams PromoCode.t :=
  {| error := fun p => error (PromoCode.apiError_ p);
     clearError := fun p =>
       PromoCode_set_apiError p (clearError (PromoCode.apiError_ p)) |}.

#[export] Instance Booking_responseParams : responseParams Booking.t :=
  {| error := fun b => error (Booking.apiError_ b);
     clearError := fun b =>
       Booking_set_apiError b (clearError (Booking.apiError_ b)) |}.

(** What [clearError] is for: once it has run, [error] reports nothing. *)
Class ClearsError (T : Type) `{!responseParams T} : Prop :=
  error_clearError : forall x : T, error (clearError x) = None.

(** ** Requests and headers ([net/http]) *)

Abbreviation Header := (gmap string (list string)).

Module Request.
Record t := mk {
  Method : string;
  URL : string;
  Header_ : Header;
  Body_ : option Buffer
}.
End Request.

Definition Request_set_Header (r : Request.t) (h : Header) : Request.t :=
  Request.mk (Request.Method r) (Request.URL r) h (Request.Body_ r).

Definition in_range (lo hi : N) (c : ascii) : bool :=
  ((lo <=? N_of_ascii c) && (N_of_ascii c <=? hi))%N.

Definition is_lower (c : ascii) : bool := in_range 97 122 c.
Definition is_upper (c : ascii) : bool := in_range 65 90 c.

(** The bytes of an HTTP token: letters, digits and [!#$%&'*+-.^_`|~]. *)
Definition validHeaderFieldByte (c : ascii) : bool :=
  is_lower c || is_upper c || in_range 48 57 c ||
  bool_decide (N_of_ascii c ∈ [33; 35; 36; 37; 38; 39; 42; 43; 45; 46;
                               94; 95; 96; 124; 126]%N).

Fixpoint canonical_from (upper : bool) (s : string) : string :=
  match s with
  | EmptyString => EmptyString
  | String c s' =>
      let c' :=
        if upper && is_lower c then ascii_of_N (N_of_ascii c - 32)
        else if negb upper && is_upper c then ascii_of_N (N_of_ascii c + 32)
        else c in
      String c' (canonical_from (Ascii.eqb c' "-") s')
  end.

(** [textproto.CanonicalMIMEHeaderKey]: a key with a byte outside the token
    alphabet is returned as it is; otherwise the first letter and every letter
    after a hyphen are upper case and the others lower case. *)
Definition CanonicalMIMEHeaderKey (s : string) : string :=
  if forallb validHeaderFieldByte (list_ascii_of_string s)
  then canonical_from true s
  else s.

(** [h.Set(key, value)] canonicalises the key; [h[key] = ...] does not. *)
Definition Header_Set (h : Header) (key val : string) : Header :=
  <[CanonicalMIMEHeaderKey key := [val]]> h.

(** ** The world outside the file *)

(** What a call does to the outside, newest first. *)
Inductive event : Type :=
| EvPrintln (t : Ticket.t)
| EvGenKey (k : string)
| EvDo (r : Request.t).

Definition is_Do (e : event) : bool :=
  match e with EvDo _ => true | _ => false end.

Definition is_GenKey (e : event) : bool :=
  match e with EvGenKey _ => true | _ => false end.

Class Env := {
  (** the package variables, at their current values *)
  FixrVersion : string;
  FixrPlatformVer : string;
  UserAgent : string;
  (** the body of an HTTP response *)
  Body : Type;
  (** [http.NewRequest] parses the address; [req.URL.String()] is the result,
      [None] when the address does not parse *)
  url_String : string -> option string;
  (** [c.httpClient.Do(req)], given what happened before *)
  http_Do : list event -> Request.t -> err + Body;
  (** [json.NewDecoder(body).Decode(obj)], one per target type: the target as
      the decoder leaves it, and the decoder's error *)
  Decode_Client : Body -> Client.t -> Client.t * option err;
  Decode_Event : Body -> Event.t -> Event.t * option err;
  Decode_PromoCode : Body -> PromoCode.t -> PromoCode.t * option err;
  Decode_Booking : Body -> Booking.t -> Booking.t * option err;
  (** [jsonifyPayload], defined in another file of the package *)
  jsonifyPayload : payload -> err + Buffer;
  (** the key [genKey()] returns, given what happened before *)
  genKey_next : list event -> string;
  (** whether the entries of a map literal with run-time keys are stored in
      source order: the language leaves the order of these assignments open *)
  literal_in_order : list event -> bool;
  (** the order in which a [range] visits a map: any order, and it may differ
      from one run to the next *)
  range_order : list event -> gmap bool string -> list (bool * string);
  range_order_perm : forall tr m, range_order tr m ≡ₚ map_to_list m
}.

Class Unmarshal `{Env} (T : Type) := json_Decode : Body -> T -> T * option err.

#[export] Instance Unmarshal_Client `{Env} : Unmarshal Client.t :=
  Decode_Client.
#[export] Instance Unmarshal_Event `{Env} : Unmarshal Event.t :=
  Decode_Event.
#[export] Instance Unmarshal_PromoCode `{Env} : Unmarshal PromoCode.t :=
  Decode_PromoCode.
#[export] Instance Unmarshal_Booking `{Env} : Unmarshal Booking.t :=
  Decode_Booking.

(** Effects thread the trace. *)
Definition M (A : Type) : Type := list event -> A * list event.

#[export] Instance M_ret : MRet M := fun A x tr => (x, tr).
#[export] Instance M_bind : MBind M :=
  fun A B f m tr => let '(a, tr') := m tr in f a tr'.

Definition emit (e : event) : M unit := fun tr => (tt, e :: tr).
Definition history : M (list event) := fun tr => (tr, tr).

(** ** The response envelope *)

(** [func decodeJSONResponse(body io.ReadCloser, obj responseParams) error].
    The deferred [obj.clearError()] is registered after the decoder's error is
    checked, and runs after [obj.error()] has been read. *)
Definition decodeJSONResponse `{Env} {T} `{!responseParams T, !Unmarshal T}
    (body : Body) (obj : T) : T * option err :=
  let '(obj, e) := json_Decode body obj in
  match e with
  | Some e => (obj, Some (errors_Wrap e "JSON decoding failed"))
  | None =>
      match error obj with
      | Some e => (clearError obj, Some e)
      | None => (clearError obj, None)
      end
  end.

(** ** The dispatcher *)

(** [http.NewRequest(method, addr, body)] with a valid method. *)
Definition http_NewRequest `{Env} (method addr : string)
    (body : option Buffer) : option Request.t :=
  u ← url_String addr; Some (Request.mk method u ∅ body).

(** The headers [req] leaves on the request. *)
Definition req_headers `{Env} (c : Client.t) (r : Request.t) (auth : bool)
  : Header :=
  let h := Header_Set (Request.Header_ r) "User-Agent" UserAgent in
  let h :=
    if auth
    then Header_Set h "Authorization" ("Token " +:+ Client.AuthToken c)
    else h in
  if String.eqb (Request.URL r) cardURL
  then Header_Set h "Content-Type" "application/x-www-form-urlencoded"
  else
    let h := Header_Set h "Content-Type" "application/json" in
    let h := <["FIXR-Platform" := ["web"]]> h in
    let h := <["FIXR-Platform-Version" := [FixrPlatformVer]]> h in
    <["FIXR-App-Version" := [FixrVersion]]> h.

(** The request as [req] hands it to the transport. *)
Definition outbound `{Env} (c : Client.t) (r : Request.t) (auth : bool)
  : Request.t :=
  Request_set_Header r (req_headers c r auth).

(** [func (c *Client) req(req *http.Request, auth bool, obj responseParams)]. *)
Definition req `{Env} {T} `{!responseParams T, !Unmarshal T}
    (c : Client.t) (r : Request.t) (auth : bool) (obj : T)
  : M (T * option err) :=
  let r := outbound c r auth in
  tr ← history;
  _ ← emit (EvDo r);
  match http_Do tr r with
  | inl e => mret (obj, Some (errors_Wrap e "error executing request"))
  | inr body => mret (decodeJSONResponse body obj)
  end.

(** [func (c *Client) get(addr string, auth bool, obj responseParams)]. *)
Definition get `{Env} {T} `{!responseParams T, !Unmarshal T}
    (c : Client.t) (addr : string) (auth : bool) (obj : T)
  : M (T * option err) :=
  match http_NewRequest "GET" addr None with
  | None => mret (obj, Some (errors_New "error creating GET request"))
  | Some r => req c r auth obj
  end.

(** [func (c *Client) post(addr string, data *bytes.Buffer, auth bool, obj)]. *)
Definition post `{Env} {T} `{!responseParams T, !Unmarshal T}
    (c : Client.t) (addr : string) (data : Buffer) (auth : bool) (obj : T)
  : M (T * option err) :=
  match http_NewRequest "POST" addr (Some data) with
  | None => mret (obj, Some (errors_New "error creating POST request"))
  | Some r => req c r auth obj
  end.

(** ** The domain operations *)

(** [func (c *Client) Logon(pass string) error]: the receiver is the decode
    target, so the client comes back as the call leaves it. *)
Definition Logon `{Env} (c : Client.t) (pass : string)
  : M (Client.t * option err) :=
  let pl : payload :=
    <["password" := VStr pass]> (<["email" := VStr (Client.Email c)]> ∅) in
  match jsonifyPayload pl with
  | inl e => mret (c, Some e)
  | inr data =>
      '(c', e) ← post c loginURL data false c;
      match e with
      | Some e => mret (c', Some (errors_Wrap e "error logging on"))
      | None => mret (c', None)
      end
  end.

(** [func (c *Client) Event(id int)], returning an Event pointer and an error. *)
Definition Event `{Env} (c : Client.t) (id : Z)
  : M (option Event.t * option err) :=
  let event := Event_zero in
  '(event, e) ← get c (eventURL id) false event;
  match e with
  | Some e => mret (None, Some (errors_Wrap e "error getting event"))
  | None => mret (Some event, None)
  end.

(** [func (c *Client) Promo(ticketID int, code string)], returning a PromoCode
    pointer and an error. *)
Definition Promo `{Env} (c : Client.t) (ticketID : Z) (code : string)
  : M (option PromoCode.t * option err) :=
  let promo := PromoCode_zero in
  '(promo, e) ← get c (promoURL ticketID code) true promo;
  match e with
  | Some e => mret (None, Some (errors_Wrap e "error getting promo code"))
  | None => mret (Some promo, None)
  end.

(** [fmt.Println(ticket)]. *)
Definition Println (t : Ticket.t) : M unit := emit (EvPrintln t).

(** [genKey()], defined in another file of the package. *)
Definition genKey `{Env} : M string :=
  tr ← history;
  let k := genKey_next tr in
  _ ← emit (EvGenKey k);
  mret k.

(** [fmt.Errorf("cannot purchase more than the maximum (%d)", ticket.Max)]. *)
Definition over_max_msg (ticket : Ticket.t) : string :=
  "cannot purchase more than the maximum ("
  +:+ pretty (Ticket.Max ticket) +:+ ")".

(** The map literal of lines 224-226.  Its two keys are evaluated at run time
    and each entry is stored by an assignment; when the two flags are equal
    the entry stored last replaces the other. *)
Definition Book_flags (in_order : bool) (ticket : Ticket.t)
  : gmap bool string :=
  if in_order
  then <[Ticket.Expired ticket := "ticket selection has expired"]>
         (<[Ticket.SoldOut ticket := "ticket selection has sold out"]> ∅)
  else <[Ticket.SoldOut ticket := "ticket selection has sold out"]>
         (<[Ticket.Expired ticket := "ticket selection has expired"]> ∅).

(** The message of the check that fails first: the entry of [Book_flags]
    under [true], and the maximum-exceeded message when there is none. *)
Definition Book_check_msg (in_order : bool) (ticket : Ticket.t) : string :=
  match Ticket.SoldOut ticket, Ticket.Expired ticket with
  | true, true =>
      if in_order then "ticket selection has expired"
      else "ticket selection has sold out"
  | true, false => "ticket selection has sold out"
  | false, true => "ticket selection has expired"
  | false, false => over_max_msg ticket
  end.

(** The body of the [range] loop of lines 224-230, on the entries in the order
    the loop visits them: the message of the first entry whose key is true. *)
Fixpoint range_first_true (entries : list (bool * string)) : option string :=
  match entries with
  | [] => None
  | (t, msg) :: rest => if t then Some msg else range_first_true rest
  end.

(** The condition of line 234: [ticket.BookingFee+ticket.Price > 0]. *)
Definition paid (ticket : Ticket.t) : bool :=
  (0 <? Ticket.BookingFee ticket + Ticket.Price ticket)%float.

(** Lines 218-221 and 234-239: the payload as line 240 hands it over. *)
Definition Book_payload `{Env} (ticket : Ticket.t) (amount : Z)
    (promo : option PromoCode.t) : M payload :=
  let pl : payload :=
    <["amount" := VInt amount]> (<["ticket_id" := VInt (Ticket.ID ticket)]> ∅) in
  pl ← (if paid ticket
        then k ← genKey; mret (<["purchase_key" := VStr k]> pl)
        else mret pl);
  match promo with
  | Some p => mret (<["promo_code" := VStr (PromoCode.Code p)]> pl)
  | None => mret pl
  end.

(** [func (c *Client) Book(ticket *Ticket, amount int, promo *PromoCode)],
    returning a Booking pointer and an error. *)
Definition Book `{Env} (c : Client.t) (ticket : Ticket.t) (amount : Z)
    (promo : option PromoCode.t) : M (option Booking.t * option err) :=
  _ ← Println ticket;
  let booking := Booking_zero in
  tr ← history;
  match range_first_true
          (range_order tr (Book_flags (literal_in_order tr) ticket)) with
  | Some msg => mret (None, Some (errors_New msg))
  | None =>
      if amount >? Ticket.Max ticket
      then mret (None, Some (errors_New (over_max_msg ticket)))
      else
        pl ← Book_payload ticket amount promo;
        match jsonifyPayload pl with
        | inl e => mret (None, Some e)
        | inr data =>
            '(booking, e) ← post c bookingURL data true booking;
            match e with
            | Some e => mret (None, Some (errors_Wrap e "error booking ticket"))
            | None => mret (Some booking, None)
            end
        end
  end.

(** A call that took the trace from [before] to [after] sent no request. *)
Definition sends_nothing (before after : list event) : Prop :=
  exists new, after = (new ++ before)%list
              /\ Forall (fun e => is_Do e = false) new.

(** How an operation returns what the dispatcher gave it: the error under
    the operation's tag and no result, or the target and no error. *)
Definition tagged {T : Type} (tag : string) (r : T * option err)
  : option T * option err :=
  match snd r with
  | Some e => (None, Some (errors_Wrap e tag))
  | None => (Some (fst r), None)
  end.

(** ** A reference environment

    One concrete [Env], used to run the operations on closed inputs.  Its
    codec follows the documented behaviour of encoding/json on the structs of
    this file: members are stored in document order under their tag, unknown
    members are skipped, [null] leaves a scalar as it is and resets a pointer
    or a slice, and a member of the wrong JSON kind is skipped while the
    earliest such mismatch becomes the decoder's error. *)

Definition json_kind (v : json) : string :=
  match v with
  | JNull => "null"
  | JBool _ => "bool"
  | JNum _ _ => "number"
  | JStr _ => "string"
  | JArr _ => "array"
  | JObj _ => "object"
  end.

(** The text of an [*json.UnmarshalTypeError]: for a member of a struct, and
    for a value that is not inside a struct. *)
Definition UnmarshalTypeError (v : json) (field ty : string) : err :=
  errors_New ("json: cannot unmarshal " +:+ json_kind v
              +:+ " into Go struct field " +:+ field
              +:+ " of type " +:+ ty).

Definition UnmarshalTypeError_value (v : json) (ty : string) : err :=
  errors_New ("json: cannot unmarshal " +:+ json_kind v
              +:+ " into Go value of type " +:+ ty).

Definition store_string (v : json) (old : string) : option string :=
  match v with JStr s => Some s | JNull => Some old | _ => None end.

Definition store_int (v : json) (old : Z) : option Z :=
  match v with
  | JNum (Some z) _ =>
      if (- 2 ^ 63 <=? z) && (z <? 2 ^ 63) then Some z else None
  | JNull => Some old
  | _ => None
  end.

(** A number literal beyond the range of binary64 does not fit. *)
Definition store_float (v : json) (old : float) : option float :=
  match v with
  | JNum _ f => if is_infinity f || is_nan f then None else Some f
  | JNull => Some old
  | _ => None
  end.

Definition store_bool (v : json) (old : bool) : option bool :=
  match v with JBool b => Some b | JNull => Some old | _ => None end.

Definition put {A T : Type} (stored : option A) (field ty : string) (v : json)
    (set : A -> T) (obj : T) : T * option err :=
  match stored with
  | Some a => (set a, None)
  | None => (obj, Some (UnmarshalTypeError v field ty))
  end.

(** The earliest error wins. *)
Definition first_error (e1 e2 : option err) : option err :=
  match e1 with Some _ => e1 | None => e2 end.

Definition decode_struct {T : Type}
    (member : string -> json -> T -> T * option err) (mismatch : json -> err)
    (v : json) (obj : T) : T * option err :=
  match v with
  | JNull => (obj, None)
  | JObj members =>
      fold_left
        (fun st kv =>
           let '(o, e) := member (fst kv) (snd kv) (fst st) in
           (o, first_error (snd st) e))
        members (obj, None)
  | _ => (obj, Some (mismatch v))
  end.

(** encoding/json matches a member to a field without regard to the case of
    ASCII letters. *)
Definition lower (s : string) : string :=
  string_of_list_ascii
    (map (fun c => if is_upper c then ascii_of_N (N_of_ascii c + 32) else c)
         (list_ascii_of_string s)).

Definition key_is (k name : string) : bool :=
  String.eqb (lower k) (lower name).

Definition Ticket_zero : Ticket.t :=
  Ticket.mk 0 "" 0 "" 0%float 0%float 0 false false false.

(** The members of a [Ticket] that is reached from the root by [path]: the
    text of a mismatch names the struct and the path of the member. *)
Definition Ticket_member (path : string) (k : string) (v : json)
    (t : Ticket.t) : Ticket.t * option err :=
  let '(Ticket.mk id name ty cur price fee max sold expired invalid) := t in
  if key_is k "id" then
    put (store_int v id) ("Ticket." +:+ path +:+ "id") "int" v
      (fun x => Ticket.mk x name ty cur price fee max sold expired invalid) t
  else if key_is k "name" then
    put (store_string v name) ("Ticket." +:+ path +:+ "name") "string" v
      (fun x => Ticket.mk id x ty cur price fee max sold expired invalid) t
  else if key_is k "type" then
    put (store_int v ty) ("Ticket." +:+ path +:+ "type") "int" v
      (fun x => Ticket.mk id name x cur price fee max sold expired invalid) t
  else if key_is k "currency" then
    put (store_string v cur) ("Ticket." +:+ path +:+ "currency") "string" v
      (fun x => Ticket.mk id name ty x price fee max sold expired invalid) t
  else if key_is k "price" then
    put (store_float v price) ("Ticket." +:+ path +:+ "price") "float64" v
      (fun x => Ticket.mk id name ty cur x fee max sold expired invalid) t
  else if key_is k "booking_fee" then
    put (store_float v fee) ("Ticket." +:+ path +:+ "booking_fee") "float64" v
      (fun x => Ticket.mk id name ty cur price x max sold expired invalid) t
  else if key_is k "max_per_user" then
    put (store_int v max) ("Ticket." +:+ path +:+ "max_per_user") "int" v
      (fun x => Ticket.mk id name ty cur price fee x sold expired invalid) t
  else if key_is k "sold_out" then
    put (store_bool v sold) ("Ticket." +:+ path +:+ "sold_out") "bool" v
      (fun x => Ticket.mk id name ty cur price fee max x expired invalid) t
  else if key_is k "expired" then
    put (store_bool v expired) ("Ticket." +:+ path +:+ "expired") "bool" v
      (fun x => Ticket.mk id name ty cur price fee max sold x invalid) t
  else if key_is k "not_yet_valid" then
    put (store_bool v invalid) ("Ticket." +:+ path +:+ "not_yet_valid") "bool" v
      (fun x => Ticket.mk id name ty cur price fee max sold expired x) t
  else (t, None).

(** A JSON array stored in a slice: the element at an index is decoded over
    the element the slice had there, when it had one, and over a zero ticket
    otherwise; the slice ends up as long as the array. *)
Definition store_Tickets (path : string) (v : json) (old : list Ticket.t)
  : list Ticket.t * option err :=
  match v with
  | JNull => ([], None)
  | JArr elems =>
      fold_left
        (fun (st : list Ticket.t * option err) x =>
           let '(t, e) :=
             decode_struct (Ticket_member (path +:+ "tickets."))
               (fun x => UnmarshalTypeError x ("Event." +:+ path +:+ "tickets")
                           "fixr.Ticket")
               x (nth (length (fst st)) old Ticket_zero) in
           ((fst st ++ [t])%list, first_error (snd st) e))
        elems ([], None)
  | _ => (old, Some (UnmarshalTypeError v ("Event." +:+ path +:+ "tickets")
                       "[]fixr.Ticket"))
  end.

Definition Event_member (path : string) (k : string) (v : json)
    (ev : Event.t) : Event.t * option err :=
  let '(Event.mk id name tickets detail) := ev in
  if key_is k "id" then
    put (store_int v id) ("Event." +:+ path +:+ "id") "int" v
      (fun x => Event.mk x name tickets detail) ev
  else if key_is k "name" then
    put (store_string v name) ("Event." +:+ path +:+ "name") "string" v
      (fun x => Event.mk id x tickets detail) ev
  else if key_is k "tickets" then
    let '(ts, e) := store_Tickets path v tickets in
    (Event.mk id name ts detail, e)
  else if key_is k "detail" then
    put (store_string v detail) ("Event." +:+ path +:+ "detail") "string" v
      (fun x => Event.mk id name tickets x) ev
  else (ev, None).

Definition Client_member (k : string) (v : json) (c : Client.t)
  : Client.t * option err :=
  let '(Client.mk a email first last magic token stripe) := c in
  if key_is k "message" then
    put (store_string v (apiError.Error a)) "Client.message" "string" v
      (fun x => Client.mk (apiError.mk x) email first last magic token stripe)
      c
  else if key_is k "Email" then
    put (store_string v email) "Client.Email" "string" v
      (fun x => Client.mk a x first last magic token stripe) c
  else if key_is k "first_name" then
    put (store_string v first) "Client.first_name" "string" v
      (fun x => Client.mk a email x last magic token stripe) c
  else if key_is k "last_name" then
    put (store_string v last) "Client.last_name" "string" v
      (fun x => Client.mk a email first x magic token stripe) c
  else if key_is k "magic_login_url" then
    put (store_string v magic) "Client.magic_login_url" "string" v
      (fun x => Client.mk a email first last x token stripe) c
  else if key_is k "auth_token" then
    put (store_string v token) "Client.auth_token" "string" v
      (fun x => Client.mk a email first last magic x stripe) c
  else if key_is k "stripe_user" then
    match v with
    | JNull => (Client.mk a email first last magic token None, None)
    | JObj _ =>
        (Client.mk a email first last magic token (Some (StripeUserData v)),
         None)
    | _ => (c, Some (UnmarshalTypeError v "Client.stripe_user"
                       "fixr.stripeUser"))
    end
  else (c, None).

Definition PromoCode_member (k : string) (v : json) (p : PromoCode.t)
  : PromoCode.t * option err :=
  let '(PromoCode.mk a code price fee cur max remaining) := p in
  if key_is k "message" then
    put (store_string v (apiError.Error a)) "PromoCode.message" "string" v
      (fun x => PromoCode.mk (apiError.mk x) code price fee cur max remaining)
      p
  else if key_is k "code" then
    put (store_string v code) "PromoCode.code" "string" v
      (fun x => PromoCode.mk a x price fee cur max remaining) p
  else if key_is k "price" then
    put (store_float v price) "PromoCode.price" "float64" v
      (fun x => PromoCode.mk a code x fee cur max remaining) p
  else if key_is k "booking_fee" then
    put (store_float v fee) "PromoCode.booking_fee" "float64" v
      (fun x => PromoCode.mk a code price x cur max remaining) p
  else if key_is k "currency" then
    put (store_string v cur) "PromoCode.currency" "string" v
      (fun x => PromoCode.mk a code price fee x max remaining) p
  else if key_is k "max_per_user" then
    put (store_int v max) "PromoCode.max_per_user" "int" v
      (fun x => PromoCode.mk a code price fee cur x remaining) p
  else if key_is k "remaining" then
    put (store_int v remaining) "PromoCode.remaining" "int" v
      (fun x => PromoCode.mk a code price fee cur max x) p
  else (p, None).

Definition Booking_member (k : string) (v : json) (b : Booking.t)
  : Booking.t * option err :=
  let '(Booking.mk a ev name pdf state) := b in
  if key_is k "message" then
    put (store_string v (apiError.Error a)) "Booking.message" "string" v
      (fun x => Booking.mk (apiError.mk x) ev name pdf state) b
  else if key_is k "event" then
    let '(ev', e) :=
      decode_struct (Event_member "event.")
        (fun x => UnmarshalTypeError x "Booking.event" "fixr.Event") v ev in
    (Booking.mk a ev' name pdf state, e)
  else if key_is k "user_full_name" then
    put (store_string v name) "Booking.user_full_name" "string" v
      (fun x => Booking.mk a ev x pdf state) b
  else if key_is k "pdf" then
    put (store_string v pdf) "Booking.pdf" "string" v
      (fun x => Booking.mk a ev name x state) b
  else if key_is k "state" then
    put (store_int v state) "Booking.state" "int" v
      (fun x => Booking.mk a ev name pdf x) b
  else (b, None).

(** A response body of the reference environment: a JSON document, or bytes
    that are not JSON. *)
Definition ref_Body : Type := option json.

Definition ref_Decode {T : Type}
    (member : string -> json -> T -> T * option err) (name : string)
    (body : ref_Body) (obj : T) : T * option err :=
  match body with
  | None =>
      (obj, Some (errors_New
         "invalid character '<' looking for beginning of value"))
  | Some v =>
      decode_struct member
        (fun x => UnmarshalTypeError_value x ("fixr." +:+ name)) v obj
  end.

(** A stand-in for [jsonifyPayload]: a JSON object with one member per entry
    of the payload.  Integers and strings always encode, so it never fails. *)
Definition quoted (s : string) : string :=
  String "034"%char (s +:+ String "034"%char "").

Definition render_value (v : value) : string :=
  match v with
  | VInt z => pretty z
  | VStr s => quoted s
  end.

Definition ref_jsonifyPayload (pl : payload) : err + Buffer :=
  inr ("{" +:+ String.concat ","
         (map (fun kv => quoted (fst kv) +:+ ":" +:+ render_value (snd kv))
              (map_to_list pl))
       +:+ "}").

Definition is_hex (c : ascii) : bool :=
  in_range 48 57 c || in_range 65 70 c || in_range 97 102 c.

Fixpoint escapes_ok (s : string) : bool :=
  match s with
  | String "%" (String a (String b rest)) =>
      is_hex a && is_hex b && escapes_ok rest
  | String "%" _ => false
  | String _ rest => escapes_ok rest
  | EmptyString => true
  end.

(** net/url rejects an address with a control character or with a percent
    sign that does not start an escape.  The addresses of the examples are
    made of letters, digits and [:/.-_], which it renders as they are; what
    it does to other characters is not modelled. *)
Definition ref_url_String (addr : string) : option string :=
  if forallb (fun c => (32 <=? N_of_ascii c)%N && negb (N_of_ascii c =? 127)%N)
       (list_ascii_of_string addr)
     && escapes_ok addr
  then Some addr
  else None.

Definition ref_range_order (backwards : bool) (m : gmap bool string)
  : list (bool * string) :=
  if backwards then reverse (map_to_list m) else map_to_list m.

Definition ref_range_order_perm (backwards : bool) (m : gmap bool string)
  : ref_range_order backwards m ≡ₚ map_to_list m :=
  match backwards return ref_range_order backwards m ≡ₚ map_to_list m with
  | true => reverse_Permutation (map_to_list m)
  | false => Permutation_refl (map_to_list m)
  end.

(** The reference environment: the package variables at their declared
    values, the remote end answering the n-th request with the n-th of
    [replies] (and refusing the connection after that), the keys numbered,
    the entries of a map literal stored in source order (as the standard
    compiler does) or not, and a map range running forwards or backwards. *)
Definition refEnv (in_order backwards : bool)
    (replies : list (err + ref_Body)) : Env :=
  {| FixrVersion := "1.34.0";
     FixrPlatformVer := "Chrome/51.0.2704.103";
     UserAgent :=
       "Mozilla/5.0 (X11; Linux x86_64) AppleWebKit/537.36 (KHTML, like Gecko) Chrome/51.0.2704.103 Safari/537.36";
     Body := ref_Body;
     url_String := ref_url_String;
     http_Do := fun tr _ =>
       nth (length (filter is_Do tr)) replies
         (inl (errors_New "dial tcp: connection refused"));
     Decode_Client := ref_Decode Client_member "Client";
     Decode_Event := ref_Decode (Event_member "") "Event";
     Decode_PromoCode := ref_Decode PromoCode_member "PromoCode";
     Decode_Booking := ref_Decode Booking_member "Booking";
     jsonifyPayload := ref_jsonifyPayload;
     genKey_next := fun tr =>
       "key-" +:+ pretty (length (filter is_GenKey tr));
     literal_in_order := fun _ => in_order;
     range_order := fun _ => ref_range_order backwards;
     range_order_perm := fun _ => ref_range_order_perm backwards |}.

(** Closed inputs for the examples. *)
Definition ticket_of (price fee : float) (max : Z) (sold expired : bool)
  : Ticket.t :=
  Ticket.mk 7 "General" 1 "GBP" price fee max sold expired false.

Definition promo_of (code : string) (price : float) : PromoCode.t :=
  PromoCode.mk apiError_zero code price 0%float "GBP" 2 10.

Definition login_refused : ref_Body :=
  Some (JObj [("message", JStr "Incorrect password");
              ("first_name", JStr "Ann");
              ("auth_token", JStr "tok-1")]).

(** A login answer whose [first_name] is a number: the decoder stores the
    message, skips the name and reports the mismatch. *)
Definition login_ill_typed : ref_Body :=
  Some (JObj [("message", JStr "Too many attempts");
              ("first_name", JNum (Some 7) 7%float)]).

Definition login_accepted : ref_Body :=
  Some (JObj [("first_name", JStr "Ann");
              ("last_name", JStr "Lee");
              ("auth_token", JStr "tok-2")]).

Definition event_found : ref_Body :=
  Some (JObj [("id", JNum (Some 42) 42%float);
              ("name", JStr "Launch party");
              ("tickets",
               JArr [JObj [("id", JNum (Some 7) 7%float);
                           ("name", JStr "General");
                           ("price", JNum (Some 10) 10%float);
                           ("max_per_user", JNum (Some 3) 3%float)]])]).

Definition event_missing : ref_Body :=
  Some (JObj [("detail", JStr "Not found.")]).

Definition booking_made : ref_Body :=
  Some (JObj [("user_full_name", JStr "Ann Lee");
              ("pdf", JStr "https://fixr.co/t.pdf");
              ("state", JNum (Some 1) 1%float)]).

(** The request of a booking whose checks pass, in an environment where the
    address parses to itself. *)
Definition booking_request `{Env} (c : Client.t) (ticket : Ticket.t)
    (amount : Z) (promo : option PromoCode.t) (tr : list event) : Request.t :=
  let pl := fst (Book_payload ticket amount promo (EvPrintln ticket :: tr)) in
  outbound c
    (Request.mk "POST" bookingURL ∅
       (match jsonifyPayload pl with inr data => Some data | inl _ => None end))
    true.

(** The requests of a trace, newest first. *)
Definition requests (tr : list event) : list Request.t :=
  omap (fun e => match e with EvDo r => Some r | _ => None end) tr.

(** The keys [req] may write in the header of a request. *)
Definition req_keys : list string :=
  ["User-Agent"; "Authorization"; "Content-Type"; "FIXR-Platform";
   "FIXR-Platform-Version"; "FIXR-App-Version"].

(** The payload of [Logon], lines 178-181. *)
Definition Logon_payload (c : Client.t) (pass : string) : payload :=
  <["password" := VStr pass]> (<["email" := VStr (Client.Email c)]> ∅).

(** More closed inputs. *)
Definition promo_found : ref_Body :=
  Some (JObj [("code", JStr "SAVE10");
              ("price", JNum (Some 8) 8%float);
              ("currency", JStr "GBP");
              ("max_per_user", JNum (Some 2) 2%float);
              ("remaining", JNum (Some 10) 10%float)]).

Definition promo_unknown : ref_Body :=
  Some (JObj [("message", JStr "Invalid promo code")]).

Definition booking_refused : ref_Body :=
  Some (JObj [("message", JStr "Card declined")]).

(** A booking answer with no message of its own whose nested event carries
    a [detail]. *)
Definition booking_with_event_detail : ref_Body :=
  Some (JObj [("user_full_name", JStr "Ann Lee");
              ("event", JObj [("id", JNum (Some 42) 42%float);
                              ("detail", JStr "Not found.")])]).

(** An event answer with a [detail] and an ill-typed [id]. *)
Definition event_ill_typed : ref_Body :=
  Some (JObj [("detail", JStr "Not found."); ("id", JStr "forty-two")]).

Definition logged_in : Client.t :=
  Client.mk apiError_zero "ann@example.org" "Ann" "Lee" "" "tok-2" None.

(** A free ticket that is not yet valid. *)
Definition ticket_not_yet_valid : Ticket.t :=
  Ticket.mk 7 "General" 1 "GBP" 0%float 0%float 3 false false true.

(** Another client with the token of [logged_in]. *)
Definition same_token : Client.t :=
  Client.mk (apiError.mk "stale") "bob@example.org" "Bob" "Ray"
    "https://fixr.co/magic" "tok-2" (Some (StripeUserData (JObj []))).

(** * Properties *)

(** Unfold the plumbing of [M]. *)
Ltac run :=
  unfold Println, genKey, emit, history, mbind, M_bind, mret, M_ret; simpl.

(** ** Strings *)

Lemma prefix_app (sub post : string) : String.prefix sub (sub +:+ post) = true.
Proof.
  induction sub as [|a sub IH]; simpl.
  - by destruct post.
  - destruct (ascii_dec a a) as [_|Hne]; [exact IH | by destruct Hne].
Qed.

Lemma Contains_app (pre sub post : string) :
  Contains (pre +:+ sub +:+ post) sub = true.
Proof.
  induction pre as [|a pre IH].
  - change ("" +:+ sub +:+ post) with (sub +:+ post).
    pose proof (prefix_app sub post) as Hp.
    destruct (sub +:+ post); cbn [Contains]; by rewrite Hp.
  - change (String a pre +:+ sub +:+ post)
      with (String a (pre +:+ sub +:+ post)).
    cbn [Contains]. rewrite IH. apply orb_true_r.
Qed.

Lemma Contains_self (s : string) : Contains s s = true.
Proof.
  assert (Hp : String.prefix s s = true).
  { induction s as [|a s IH]; simpl; [done|].
    destruct (ascii_dec a a) as [_|Hne]; [exact IH | by destruct Hne]. }
  destruct s; cbn [Contains]; by rewrite Hp.
Qed.

Lemma mentions_New_app (pre sub post : string) :
  mentions (errors_New (pre +:+ sub +:+ post)) sub.
Proof. apply Contains_app. Qed.

Lemma mentions_Wrap (e : err) (tag sub : string) :
  mentions e sub -> mentions (errors_Wrap e tag) sub.
Proof.
  unfold mentions. simpl. intros Hm.
  assert (Hs : forall pre s, Contains s sub = true ->
                             Contains (pre +:+ s) sub = true).
  { induction pre as [|a pre IH]; intros s Hc; [done|].
    change (String a pre +:+ s) with (String a (pre +:+ s)).
    cbn [Contains]. rewrite (IH s Hc). apply orb_true_r. }
  apply Hs, (Hs ": "), Hm.
Qed.

(** ** The range over the flag map *)

Lemma range_first_true_elem (entries : list (bool * string)) (msg : string) :
  NoDup entries.*1 -> (true, msg) ∈ entries ->
  range_first_true entries = Some msg.
Proof.
  induction entries as [|[t m] rest IH]; simpl; intros Hnd Hin.
  - by apply elem_of_nil in Hin.
  - apply NoDup_cons in Hnd as [Hnotin Hnd].
    apply elem_of_cons in Hin as [Heq|Hin].
    + by inversion Heq.
    + destruct t; [|by apply IH].
      exfalso. apply Hnotin. apply list_elem_of_fmap. by exists (true, msg).
Qed.

Lemma range_first_true_none (entries : list (bool * string)) :
  (forall msg, (true, msg) ∉ entries) -> range_first_true entries = None.
Proof.
  induction entries as [|[t m] rest IH]; simpl; intros Hno; [done|].
  destruct t.
  - exfalso. apply (Hno m). by left.
  - apply IH. intros msg Hin. apply (Hno msg). by right.
Qed.

(** Whatever the order of the visit, the loop finds what the map holds under
    the key [true]. *)
Lemma range_first_true_lookup (m : gmap bool string)
    (entries : list (bool * string)) :
  entries ≡ₚ map_to_list m -> range_first_true entries = m !! true.
Proof.
  intros Hp. destruct (m !! true) as [msg|] eqn:Hl.
  - apply range_first_true_elem.
    + rewrite Hp. apply NoDup_fst_map_to_list.
    + rewrite Hp. by apply elem_of_map_to_list.
  - apply range_first_true_none. intros msg Hin.
    rewrite Hp in Hin. apply elem_of_map_to_list in Hin. congruence.
Qed.

Lemma Book_flags_true (in_order : bool) (ticket : Ticket.t) :
  Book_flags in_order ticket !! true =
    if Ticket.SoldOut ticket || Ticket.Expired ticket
    then Some (Book_check_msg in_order ticket)
    else None.
Proof.
  unfold Book_flags, Book_check_msg.
  destruct in_order, (Ticket.Expired ticket), (Ticket.SoldOut ticket); done.
Qed.

Lemma Book_range `{Env} (ticket : Ticket.t) (tr : list event) :
  range_first_true
    (range_order tr (Book_flags (literal_in_order tr) ticket)) =
    if Ticket.SoldOut ticket || Ticket.Expired ticket
    then Some (Book_check_msg (literal_in_order tr) ticket)
    else None.
Proof.
  rewrite (range_first_true_lookup (Book_flags (literal_in_order tr) ticket)).
  - apply Book_flags_true.
  - apply range_order_perm.
Qed.

(** ** Booking: the flag checks *)

(** C1 (as amended).  A ticket that is sold out or expired makes [Book]
    return no booking and an error, after printing the ticket and without
    sending a request, whatever the order in which the map range visits its
    entries.  The error mentions that the ticket sold out when only [SoldOut]
    is true and that it expired when only [Expired] is true.  When both are
    true the two entries of the map literal share the key [true] and the one
    stored last decides: the expired message when the entries are stored in
    source order, the sold-out message otherwise. *)
Theorem Book_sold_out_or_expired `{Env} (c : Client.t) (ticket : Ticket.t)
    (amount : Z) (promo : option PromoCode.t) (tr : list event) :
  Ticket.SoldOut ticket = true \/ Ticket.Expired ticket = true ->
  exists msg,
    Book c ticket amount promo tr
    = ((None, Some (errors_New msg)), EvPrintln ticket :: tr)
    /\ (Ticket.Expired ticket = false ->
        msg = "ticket selection has sold out"
        /\ mentions (errors_New msg) "sold out")
    /\ (Ticket.SoldOut ticket = false ->
        msg = "ticket selection has expired"
        /\ mentions (errors_New msg) "expired")
    /\ (Ticket.SoldOut ticket = true -> Ticket.Expired ticket = true ->
        msg = if literal_in_order (EvPrintln ticket :: tr)
              then "ticket selection has expired"
              else "ticket selection has sold out").
Proof.
  intros Hflag.
  exists (Book_check_msg (literal_in_order (EvPrintln ticket :: tr)) ticket).
  split.
  - unfold Book. run. rewrite Book_range.
    destruct Hflag as [-> | ->]; [reflexivity|].
    by rewrite orb_true_r.
  - unfold Book_check_msg.
    destruct (Ticket.SoldOut ticket), (Ticket.Expired ticket);
      repeat split; try done; by destruct Hflag.
Qed.

Lemma Book_sold_out_or_expired_witness :
  exists msg,
    @Book (refEnv true true []) (NewClient "ann@example.org")
      (ticket_of 10 1 3 true false) 1 None []
    = ((None, Some (errors_New msg)),
       [EvPrintln (ticket_of 10 1 3 true false)])
    /\ msg = "ticket selection has sold out"
    /\ mentions (errors_New msg) "sold out".
Proof.
  destruct (@Book_sold_out_or_expired (refEnv true true [])
              (NewClient "ann@example.org") (ticket_of 10 1 3 true false)
              1 None [])
    as (msg & Hbook & Hsold & _).
  - left. reflexivity.
  - exists msg. exact (conj Hbook (Hsold eq_refl)).
Defined.

(** C1 (as stated) fails: with the entries of the literal stored in source
    order, a ticket that is both sold out and expired gets the expired
    message, which does not mention that it sold out, whichever way the range
    runs. *)
Lemma Book_sold_out_and_expired_reports_expired :
  let t := ticket_of 10 1 3 true true in
  Ticket.SoldOut t = true
  /\ fst (@Book (refEnv true false []) (NewClient "ann@example.org") t 1 None [])
     = (None, Some (errors_New "ticket selection has expired"))
  /\ fst (@Book (refEnv true true []) (NewClient "ann@example.org") t 1 None [])
     = (None, Some (errors_New "ticket selection has expired"))
  /\ Contains (Error_string (errors_New "ticket selection has expired"))
       "sold out" = false.
Proof. vm_compute. repeat split. Qed.

(** ** The envelope *)

#[export] Instance apiError_ClearsError : ClearsError apiError.t.
Proof. intros a. reflexivity. Qed.

#[export] Instance Event_ClearsError : ClearsError Event.t.
Proof. intros e. reflexivity. Qed.

#[export] Instance Client_ClearsError : ClearsError Client.t.
Proof. intros c. reflexivity. Qed.

#[export] Instance PromoCode_ClearsError : ClearsError PromoCode.t.
Proof. intros p. reflexivity. Qed.

#[export] Instance Booking_ClearsError : ClearsError Booking.t.
Proof. intros b. reflexivity. Qed.

Lemma decodeJSONResponse_parsed `{Env} {T} `{!responseParams T, !Unmarshal T}
    (body : Body) (obj obj' : T) :
  json_Decode body obj = (obj', None) ->
  decodeJSONResponse body obj = (clearError obj', error obj').
Proof.
  intros Hd. unfold decodeJSONResponse. rewrite Hd.
  destruct (error obj'); reflexivity.
Qed.

Lemma decodeJSONResponse_failed `{Env} {T} `{!responseParams T, !Unmarshal T}
    (body : Body) (obj obj' : T) (e : err) :
  json_Decode body obj = (obj', Some e) ->
  decodeJSONResponse body obj =
    (obj', Some (errors_Wrap e "JSON decoding failed")).
Proof. intros Hd. unfold decodeJSONResponse. rewrite Hd. reflexivity. Qed.

(** X20.  Once the body has parsed, [clearError] runs before
    [decodeJSONResponse] returns, whether the embedded error is empty or not:
    the target comes back cleared, beside the error it carried, and reports
    no error any more. *)
Theorem decodeJSONResponse_clears_after_parse `{Env} {T}
    `{!responseParams T, !Unmarshal T, !ClearsError T}
    (body : Body) (obj obj' : T) :
  json_Decode body obj = (obj', None) ->
  decodeJSONResponse body obj = (clearError obj', error obj')
  /\ error (fst (decodeJSONResponse body obj)) = None.
Proof.
  intros Hd. rewrite (decodeJSONResponse_parsed body obj obj' Hd).
  split; [reflexivity | apply error_clearError].
Qed.

Lemma decodeJSONResponse_clears_after_parse_witness :
  @decodeJSONResponse (refEnv true false []) Client.t _ _ login_refused
     (NewClient "ann@example.org")
  = (Client.mk (apiError.mk "") "ann@example.org" "Ann" "" "" "tok-1" None,
     Some (errors_New "Incorrect password"))
  /\ error (fst (@decodeJSONResponse (refEnv true false []) Client.t _ _
                   login_refused (NewClient "ann@example.org"))) = None.
Proof.
  exact (@decodeJSONResponse_clears_after_parse (refEnv true false []) Client.t
           _ _ _ login_refused (NewClient "ann@example.org")
           (Client.mk (apiError.mk "Incorrect password") "ann@example.org"
              "Ann" "" "" "tok-1" None) eq_refl).
Defined.

(** C2.  On a parse failure [decodeJSONResponse] returns before the [defer]
    is reached, so [clearError] does not run and the target keeps its error:
    a body that is not JSON leaves a target that already held a message as it
    was, and a login answer with an ill-typed member leaves on the client the
    message the decoder had stored before it met the mismatch.  The next
    logon of that client, though its answer is accepted, then fails with that
    earlier message. *)
Lemma decodeJSONResponse_parse_failure_keeps_error :
  let held :=
    Client.mk (apiError.mk "Incorrect password") "ann@example.org"
      "" "" "" "" None in
  let r1 := @decodeJSONResponse (refEnv true false []) Client.t _ _ None held in
  let r2 := @decodeJSONResponse (refEnv true false []) Client.t _ _
              login_ill_typed (NewClient "ann@example.org") in
  let E := refEnv true false [inr login_ill_typed; inr login_accepted] in
  let first := @Logon E (NewClient "ann@example.org") "secret" [] in
  let second := @Logon E (fst (fst first)) "secret" (snd first) in
  fst r1 = held
  /\ error (fst r1) = Some (errors_New "Incorrect password")
  /\ error (fst r2) = Some (errors_New "Too many attempts")
  /\ snd r2 = Some (errors_Wrap
                      (UnmarshalTypeError (JNum (Some 7) 7%float)
                         "Client.first_name" "string")
                      "JSON decoding failed")
  /\ error (fst (fst first)) = Some (errors_New "Too many attempts")
  /\ Client.AuthToken (fst (fst second)) = "tok-2"
  /\ snd (fst second)
     = Some (errors_Wrap (errors_New "Too many attempts") "error logging on").
Proof. vm_compute. repeat split. Qed.

(** ** The dispatcher *)

Lemma req_run `{Env} {T} `{!responseParams T, !Unmarshal T}
    (c : Client.t) (r : Request.t) (auth : bool) (obj : T) (tr : list event) :
  req c r auth obj tr =
    (match http_Do tr (outbound c r auth) with
     | inl e => (obj, Some (errors_Wrap e "error executing request"))
     | inr body => decodeJSONResponse body obj
     end,
     EvDo (outbound c r auth) :: tr).
Proof.
  unfold req. run. destruct (http_Do tr (outbound c r auth)); reflexivity.
Qed.

Lemma get_run `{Env} {T} `{!responseParams T, !Unmarshal T}
    (c : Client.t) (addr : string) (auth : bool) (obj : T) (tr : list event) :
  get c addr auth obj tr =
    match url_String addr with
    | None => ((obj, Some (errors_New "error creating GET request")), tr)
    | Some u => req c (Request.mk "GET" u ∅ None) auth obj tr
    end.
Proof.
  unfold get, http_NewRequest. destruct (url_String addr); reflexivity.
Qed.

Lemma post_run `{Env} {T} `{!responseParams T, !Unmarshal T}
    (c : Client.t) (addr : string) (data : Buffer) (auth : bool) (obj : T)
    (tr : list event) :
  post c addr data auth obj tr =
    match url_String addr with
    | None => ((obj, Some (errors_New "error creating POST request")), tr)
    | Some u => req c (Request.mk "POST" u ∅ (Some data)) auth obj tr
    end.
Proof.
  unfold post, http_NewRequest. destruct (url_String addr); reflexivity.
Qed.

(** A request that is answered with a body the decoder accepts. *)
Lemma req_parsed `{Env} {T} `{!responseParams T, !Unmarshal T}
    (c : Client.t) (r : Request.t) (auth : bool) (obj obj' : T)
    (tr : list event) (body : Body) :
  http_Do tr (outbound c r auth) = inr body ->
  json_Decode body obj = (obj', None) ->
  req c r auth obj tr =
    ((clearError obj', error obj'), EvDo (outbound c r auth) :: tr).
Proof.
  intros Hdo Hdec. rewrite req_run, Hdo.
  by rewrite (decodeJSONResponse_parsed body obj obj' Hdec).
Qed.

Lemma Event_run `{Env} (c : Client.t) (id : Z) (tr : list event) :
  Event c id tr =
    let '((ev, e), tr') := get c (eventURL id) false Event_zero tr in
    (match e with
     | Some e => (None, Some (errors_Wrap e "error getting event"))
     | None => (Some ev, None)
     end, tr').
Proof.
  unfold Event. run.
  destruct (get c (eventURL id) false Event_zero tr) as [[ev [e|]] tr'];
    reflexivity.
Qed.

Lemma Promo_run `{Env} (c : Client.t) (ticketID : Z) (code : string)
    (tr : list event) :
  Promo c ticketID code tr =
    let '((p, e), tr') :=
      get c (promoURL ticketID code) true PromoCode_zero tr in
    (match e with
     | Some e => (None, Some (errors_Wrap e "error getting promo code"))
     | None => (Some p, None)
     end, tr').
Proof.
  unfold Promo. run.
  destruct (get c (promoURL ticketID code) true PromoCode_zero tr)
    as [[p [e|]] tr']; reflexivity.
Qed.

Lemma Logon_run `{Env} (c : Client.t) (pass : string) (tr : list event) :
  Logon c pass tr =
    match jsonifyPayload
            (<["password" := VStr pass]>
               (<["email" := VStr (Client.Email c)]> ∅)) with
    | inl e => ((c, Some e), tr)
    | inr data =>
        let '((c', e), tr') := post c loginURL data false c tr in
        ((c', match e with
              | Some e => Some (errors_Wrap e "error logging on")
              | None => None
              end), tr')
    end.
Proof.
  unfold Logon. destruct (jsonifyPayload _) as [e|data]; [reflexivity|].
  run. destruct (post c loginURL data false c tr) as [[c' [e|]] tr'];
    reflexivity.
Qed.

Lemma Event_clearError_empty (ev : Event.t) :
  Event.Error ev = "" -> clearError ev = ev.
Proof. destruct ev as [id name ts e]; simpl. by intros ->. Qed.

Lemma Event_error_spec (ev : Event.t) :
  error ev = if bool_decide (Event.Error ev = "") then None
             else Some (errors_New (Event.Error ev)).
Proof. destruct ev as [id name ts [|a s]]; reflexivity. Qed.

Lemma apiError_error_spec (a : apiError.t) :
  error a = if bool_decide (apiError.Error a = "") then None
            else Some (errors_New (apiError.Error a)).
Proof. destruct a as [[|a s]]; reflexivity. Qed.

(** C3.  When the request of [Event] is answered with a body that parses into
    an [Event]: a non-empty embedded error gives no event and an error whose
    message contains the embedded text; an empty one gives the decoded event
    and no error. *)
Theorem Event_parsed_response `{Env} (c : Client.t) (id : Z)
    (tr : list event) (u : string) (body : Body) (ev : Event.t) :
  url_String (eventURL id) = Some u ->
  http_Do tr (outbound c (Request.mk "GET" u ∅ None) false) = inr body ->
  Decode_Event body Event_zero = (ev, None) ->
  let e := errors_Wrap (errors_New (Event.Error ev)) "error getting event" in
  fst (Event c id tr) =
    (if bool_decide (Event.Error ev = "") then (Some ev, None)
     else (None, Some e))
  /\ mentions e (Event.Error ev).
Proof.
  intros Hu Hdo Hdec e. split.
  - rewrite Event_run, get_run, Hu.
    rewrite (req_parsed c _ false Event_zero ev tr body Hdo Hdec).
    rewrite Event_error_spec.
    case_bool_decide as He; [|reflexivity].
    cbn [fst]. by rewrite (Event_clearError_empty ev He).
  - apply mentions_Wrap, Contains_self.
Qed.

Lemma Event_parsed_response_witness :
  fst (@Event (refEnv true false [inr event_missing]) (NewClient "ann@example.org")
         42 [])
  = (None,
     Some (errors_Wrap (errors_New "Not found.") "error getting event"))
  /\ mentions (errors_Wrap (errors_New "Not found.") "error getting event")
       "Not found.".
Proof.
  exact (@Event_parsed_response (refEnv true false [inr event_missing])
           (NewClient "ann@example.org") 42 [] (eventURL 42) event_missing
           (Event.mk 0 "" [] "Not found.") eq_refl eq_refl eq_refl).
Defined.

Example Event_found_example :
  fst (@Event (refEnv true false [inr event_found]) (NewClient "ann@example.org")
         42 [])
  = (Some (Event.mk 42 "Launch party"
             [Ticket.mk 7 "General" 0 "" 10%float 0%float 3 false false false]
             ""),
     None).
Proof. vm_compute. reflexivity. Qed.

(** ** Booking *)

(** [Book] once the three checks have passed. *)
Lemma Book_checks_passed `{Env} (c : Client.t) (ticket : Ticket.t)
    (amount : Z) (promo : option PromoCode.t) (tr : list event) :
  Ticket.SoldOut ticket = false -> Ticket.Expired ticket = false ->
  amount <= Ticket.Max ticket ->
  Book c ticket amount promo tr =
    let '(pl, tr1) := Book_payload ticket amount promo (EvPrintln ticket :: tr) in
    match jsonifyPayload pl with
    | inl e => ((None, Some e), tr1)
    | inr data =>
        let '((b, e), tr2) := post c bookingURL data true Booking_zero tr1 in
        (match e with
         | Some e => (None, Some (errors_Wrap e "error booking ticket"))
         | None => (Some b, None)
         end, tr2)
    end.
Proof.
  intros Hs He Hle. unfold Book. run. rewrite Book_range, He, Hs. cbn [orb].
  destruct (Z.gtb_spec amount (Ticket.Max ticket)) as [Hgt|_]; [lia|].
  destruct (Book_payload ticket amount promo (EvPrintln ticket :: tr))
    as [pl tr1].
  destruct (jsonifyPayload pl) as [e|data]; [reflexivity|].
  destruct (post c bookingURL data true Booking_zero tr1) as [[b [e|]] tr2];
    reflexivity.
Qed.

(** [Book] when a check fails: the error, and nothing but the print. *)
Lemma Book_check_failed `{Env} (c : Client.t) (ticket : Ticket.t)
    (amount : Z) (promo : option PromoCode.t) (tr : list event) :
  Ticket.SoldOut ticket = true \/ Ticket.Expired ticket = true
  \/ amount > Ticket.Max ticket ->
  Book c ticket amount promo tr =
    ((None,
      Some (errors_New
              (Book_check_msg (literal_in_order (EvPrintln ticket :: tr))
                 ticket))),
     EvPrintln ticket :: tr).
Proof.
  intros Hc. unfold Book. run. rewrite Book_range.
  destruct (Ticket.SoldOut ticket) eqn:Hs; [reflexivity|].
  destruct (Ticket.Expired ticket) eqn:He; [reflexivity|].
  destruct Hc as [Hc|[Hc|Hc]]; [done|done|]. cbn [orb].
  destruct (Z.gtb_spec amount (Ticket.Max ticket)) as [_|Hle]; [|lia].
  unfold Book_check_msg. by rewrite Hs, He.
Qed.

(** C4.  When a check fails, [Book] returns no booking and an error, and the
    trace gains the print of the ticket and nothing else: no request is sent.
    When the ticket is neither sold out nor expired and the amount exceeds
    [Max], the error is the maximum-exceeded one and mentions [Max]. *)
Theorem Book_validation_before_network `{Env} (c : Client.t)
    (ticket : Ticket.t) (amount : Z) (promo : option PromoCode.t)
    (tr : list event) :
  Ticket.SoldOut ticket = true \/ Ticket.Expired ticket = true
  \/ amount > Ticket.Max ticket ->
  exists e,
    Book c ticket amount promo tr = ((None, Some e), EvPrintln ticket :: tr)
    /\ sends_nothing tr (snd (Book c ticket amount promo tr))
    /\ (Ticket.SoldOut ticket = false -> Ticket.Expired ticket = false ->
        e = errors_New ("cannot purchase more than the maximum ("
                        +:+ pretty (Ticket.Max ticket) +:+ ")")
        /\ mentions e (pretty (Ticket.Max ticket))).
Proof.
  intros Hc. rewrite (Book_check_failed c ticket amount promo tr Hc).
  eexists. split; [reflexivity|]. split.
  - exists [EvPrintln ticket]. split; [reflexivity|].
    by repeat constructor.
  - intros Hs He. unfold Book_check_msg. rewrite Hs, He.
    split; [reflexivity|].
    apply (mentions_New_app "cannot purchase more than the maximum ("
             (pretty (Ticket.Max ticket)) ")").
Qed.

Lemma Book_validation_before_network_witness :
  exists e,
    @Book (refEnv true false [inr booking_made]) (NewClient "ann@example.org")
      (ticket_of 10 1 3 false false) 5 None []
    = ((None, Some e), [EvPrintln (ticket_of 10 1 3 false false)])
    /\ e = errors_New "cannot purchase more than the maximum (3)"
    /\ mentions e "3".
Proof.
  destruct (@Book_validation_before_network (refEnv true false [inr booking_made])
              (NewClient "ann@example.org") (ticket_of 10 1 3 false false)
              5 None [])
    as [e [Hb [_ Hm]]].
  - right. right. reflexivity.
  - exists e. split; [exact Hb|]. exact (Hm eq_refl eq_refl).
Defined.

Lemma PromoCode_clearError_empty (p : PromoCode.t) :
  apiError.Error (PromoCode.apiError_ p) = "" -> clearError p = p.
Proof. destruct p as [[e] code price fee cur max rem]; simpl. by intros ->. Qed.

Lemma Booking_clearError_empty (b : Booking.t) :
  apiError.Error (Booking.apiError_ b) = "" -> clearError b = b.
Proof. destruct b as [[e] ev name pdf state]; simpl. by intros ->. Qed.

(** X1.  When the request of [Promo] is answered with a body that parses into
    a [PromoCode]: a non-empty [message] gives no promo and an error whose
    message contains that text; an empty one gives the decoded promo and no
    error. *)
Lemma Promo_parsed_response `{Env} (c : Client.t) (ticketID : Z)
    (code : string) (tr : list event) (u : string) (body : Body)
    (p : PromoCode.t) :
  url_String (promoURL ticketID code) = Some u ->
  http_Do tr (outbound c (Request.mk "GET" u ∅ None) true) = inr body ->
  Decode_PromoCode body PromoCode_zero = (p, None) ->
  let msg := apiError.Error (PromoCode.apiError_ p) in
  let e := errors_Wrap (errors_New msg) "error getting promo code" in
  fst (Promo c ticketID code tr) =
    (if bool_decide (msg = "") then (Some p, None) else (None, Some e))
  /\ mentions e msg.
Proof.
  intros Hu Hdo Hdec msg e. split.
  - rewrite Promo_run, get_run, Hu.
    rewrite (req_parsed c _ true PromoCode_zero p tr body Hdo Hdec).
    change (error p) with (error (PromoCode.apiError_ p)).
    rewrite apiError_error_spec. fold msg.
    case_bool_decide as He; [|reflexivity].
    cbn [fst]. by rewrite (PromoCode_clearError_empty p He).
  - apply mentions_Wrap, Contains_self.
Qed.

(** X2.  When the checks of [Book] have passed, the payload has been encoded
    and the request is answered with a body that parses into a [Booking]: a
    non-empty [message] gives no booking and an error whose message contains
    that text; an empty one gives the decoded booking and no error. *)
Lemma Book_parsed_response `{Env} (c : Client.t) (ticket : Ticket.t)
    (amount : Z) (promo : option PromoCode.t) (tr tr1 : list event)
    (pl : payload) (data : Buffer) (u : string) (body : Body)
    (b : Booking.t) :
  Ticket.SoldOut ticket = false -> Ticket.Expired ticket = false ->
  amount <= Ticket.Max ticket ->
  Book_payload ticket amount promo (EvPrintln ticket :: tr) = (pl, tr1) ->
  jsonifyPayload pl = inr data ->
  url_String bookingURL = Some u ->
  http_Do tr1 (outbound c (Request.mk "POST" u ∅ (Some data)) true)
    = inr body ->
  Decode_Booking body Booking_zero = (b, None) ->
  let msg := apiError.Error (Booking.apiError_ b) in
  let e := errors_Wrap (errors_New msg) "error booking ticket" in
  fst (Book c ticket amount promo tr) =
    (if bool_decide (msg = "") then (Some b, None) else (None, Some e))
  /\ mentions e msg.
Proof.
  intros Hs He Hle Hpl Hj Hu Hdo Hdec msg e. split.
  - rewrite (Book_checks_passed c ticket amount promo tr Hs He Hle).
    rewrite Hpl, Hj, post_run, Hu.
    rewrite (req_parsed c _ true Booking_zero b tr1 body Hdo Hdec).
    change (error b) with (error (Booking.apiError_ b)).
    rewrite apiError_error_spec. fold msg.
    case_bool_decide as Hm; [|reflexivity].
    cbn [fst]. by rewrite (Booking_clearError_empty b Hm).
  - apply mentions_Wrap, Contains_self.
Qed.

(** ** Booking: the payload *)

Lemma Book_payload_run `{Env} (ticket : Ticket.t) (amount : Z)
    (promo : option PromoCode.t) (tr : list event) :
  Book_payload ticket amount promo tr =
    let pl0 : payload :=
      <["amount" := VInt amount]>
        (<["ticket_id" := VInt (Ticket.ID ticket)]> ∅) in
    let pl1 : payload :=
      if paid ticket then <["purchase_key" := VStr (genKey_next tr)]> pl0
      else pl0 in
    (match promo with
     | Some p => <["promo_code" := VStr (PromoCode.Code p)]> pl1
     | None => pl1
     end,
     if paid ticket then EvGenKey (genKey_next tr) :: tr else tr).
Proof.
  unfold Book_payload. run.
  destruct (paid ticket); destruct promo; reflexivity.
Qed.

Lemma Book_payload_purchase_key `{Env} (ticket : Ticket.t) (amount : Z)
    (promo : option PromoCode.t) (tr : list event) :
  (Book_payload ticket amount promo tr).1 !! "purchase_key" =
    if paid ticket then Some (VStr (genKey_next tr)) else None.
Proof.
  rewrite Book_payload_run. cbn zeta. cbn [fst].
  destruct (paid ticket), promo; by simplify_map_eq.
Qed.

Lemma Book_payload_promo_code `{Env} (ticket : Ticket.t) (amount : Z)
    (promo : option PromoCode.t) (tr : list event) :
  (Book_payload ticket amount promo tr).1 !! "promo_code" =
    (fun p => VStr (PromoCode.Code p)) <$> promo.
Proof.
  rewrite Book_payload_run. cbn zeta. cbn [fst].
  destruct (paid ticket), promo; by simplify_map_eq.
Qed.

(** The request [Book] sends, when it sends one: the checks have passed, the
    payload is the one [Book_payload] builds after the print, and the body of
    the request is its encoding. *)
Lemma Book_outbound `{Env} (c : Client.t) (ticket : Ticket.t) (amount : Z)
    (promo : option PromoCode.t) (tr : list event) (r : Request.t)
    (rest : list event) :
  snd (Book c ticket amount promo tr) = EvDo r :: rest ->
  exists pl data u,
    Book_payload ticket amount promo (EvPrintln ticket :: tr) = (pl, rest)
    /\ jsonifyPayload pl = inr data
    /\ url_String bookingURL = Some u
    /\ r = outbound c (Request.mk "POST" u ∅ (Some data)) true.
Proof.
  destruct (Ticket.SoldOut ticket) eqn:Hs;
    [rewrite Book_check_failed by auto; discriminate|].
  destruct (Ticket.Expired ticket) eqn:He;
    [rewrite Book_check_failed by auto; discriminate|].
  destruct (Z.le_gt_cases amount (Ticket.Max ticket)) as [Hle|Hgt];
    [|rewrite Book_check_failed by (right; right; lia); discriminate].
  rewrite (Book_checks_passed c ticket amount promo tr Hs He Hle).
  destruct (Book_payload ticket amount promo (EvPrintln ticket :: tr))
    as [pl tr1] eqn:Hpl.
  assert (Htr1 : forall r' rest', tr1 <> EvDo r' :: rest').
  { rewrite Book_payload_run in Hpl. cbn zeta in Hpl.
    injection Hpl as _ <-. intros r' rest'. by destruct (paid ticket). }
  destruct (jsonifyPayload pl) as [e|data] eqn:Hj.
  - intros Heq. by apply Htr1 in Heq.
  - rewrite post_run. destruct (url_String bookingURL) as [u|] eqn:Hu.
    + rewrite req_run.
      destruct (match http_Do tr1 _ with inl _ => _ | inr _ => _ end)
        as [b [e|]]; cbn [snd]; intros [= <- <-]; by exists pl, data, u.
    + cbn [snd]. intros Heq. by apply Htr1 in Heq.
Qed.

(** A float that compares equal to zero is one of the two zeros. *)
Lemma float_eqb_zero (x : float) :
  (x =? 0)%float = true -> x = 0%float \/ x = (-0)%float.
Proof.
  rewrite FloatAxioms.eqb_spec. intros Heq.
  rewrite <- (SF2Prim_Prim2SF x).
  change (Prim2SF 0) with (S754_zero false) in Heq.
  destruct (Prim2SF x) as [[|]| s | | s m e]; simpl in Heq.
  - right. reflexivity.
  - left. reflexivity.
  - destruct s; discriminate.
  - discriminate.
  - unfold SFeqb in Heq. simpl in Heq. destruct s; discriminate.
Qed.

(** A ticket whose price and fee are both zero is not a paid one. *)
Lemma free_ticket_not_paid (ticket : Ticket.t) :
  (Ticket.Price ticket =? 0)%float = true ->
  (Ticket.BookingFee ticket =? 0)%float = true ->
  paid ticket = false.
Proof.
  intros Hp Hf. unfold paid.
  destruct (float_eqb_zero _ Hp) as [->| ->],
           (float_eqb_zero _ Hf) as [->| ->]; reflexivity.
Qed.

(** C5.  The payload of the request [Book] sends has a [purchase_key] exactly
    when [ticket.BookingFee + ticket.Price > 0]; the key is then the one the
    generator returned, and the generator ran for it after the print of the
    ticket; a ticket whose price and fee are zero never has the field. *)
Theorem Book_purchase_key `{Env} (c : Client.t) (ticket : Ticket.t)
    (amount : Z) (promo : option PromoCode.t) (tr : list event)
    (r : Request.t) (rest : list event) :
  snd (Book c ticket amount promo tr) = EvDo r :: rest ->
  let k := genKey_next (EvPrintln ticket :: tr) in
  exists pl data,
    Book_payload ticket amount promo (EvPrintln ticket :: tr) = (pl, rest)
    /\ jsonifyPayload pl = inr data
    /\ Request.Body_ r = Some data
    /\ (is_Some (pl !! "purchase_key") <->
        (0 <? Ticket.BookingFee ticket + Ticket.Price ticket)%float = true)
    /\ (forall v, pl !! "purchase_key" = Some v ->
          v = VStr k /\ rest = EvGenKey k :: EvPrintln ticket :: tr)
    /\ ((Ticket.Price ticket =? 0)%float = true ->
        (Ticket.BookingFee ticket =? 0)%float = true ->
        pl !! "purchase_key" = None).
Proof.
  intros Hsent k.
  destruct (Book_outbound c ticket amount promo tr r rest Hsent)
    as (pl & data & u & Hpl & Hj & Hu & ->).
  exists pl, data. split; [exact Hpl|]. split; [exact Hj|].
  split; [reflexivity|].
  pose proof (Book_payload_purchase_key ticket amount promo
                (EvPrintln ticket :: tr)) as Hk.
  pose proof (Book_payload_run ticket amount promo (EvPrintln ticket :: tr))
    as Hrun.
  rewrite Hpl in Hk, Hrun. cbn [fst] in Hk. cbn zeta in Hrun.
  injection Hrun as _ Hrest.
  fold (paid ticket). rewrite Hk. split; [|split].
  - destruct (paid ticket); split; done.
  - intros v Hv. destruct (paid ticket); [|discriminate].
    injection Hv as <-. by subst rest.
  - intros Hp Hf. by rewrite (free_ticket_not_paid ticket Hp Hf).
Qed.

Lemma Book_purchase_key_witness :
  let E := refEnv true false [inr booking_made] in
  let c := NewClient "ann@example.org" in
  let t := ticket_of 10 1 3 false false in
  exists pl data,
    @Book_payload E t 2 None [EvPrintln t]
    = (pl, [EvGenKey "key-0"; EvPrintln t])
    /\ @jsonifyPayload E pl = inr data
    /\ Request.Body_ (@booking_request E c t 2 None []) = Some data
    /\ pl !! "purchase_key" = Some (VStr "key-0").
Proof.
  intros E c t.
  destruct (@Book_purchase_key E c t 2 None [] (@booking_request E c t 2 None [])
              [EvGenKey "key-0"; EvPrintln t])
    as (pl & data & Hpl & Hj & Hb & Hiff & Hkey & _).
  - vm_compute. reflexivity.
  - exists pl, data.
    destruct (proj2 Hiff eq_refl) as [v Hv].
    refine (conj Hpl (conj Hj (conj Hb _))).
    rewrite Hv. f_equal. exact (proj1 (Hkey v Hv)).
Defined.

(** C6.  The payload of the request [Book] sends has a [promo_code] exactly
    when a promo was passed, and its value is then [promo.Code]. *)
Theorem Book_promo_code `{Env} (c : Client.t) (ticket : Ticket.t)
    (amount : Z) (promo : option PromoCode.t) (tr : list event)
    (r : Request.t) (rest : list event) :
  snd (Book c ticket amount promo tr) = EvDo r :: rest ->
  exists pl data,
    Book_payload ticket amount promo (EvPrintln ticket :: tr) = (pl, rest)
    /\ jsonifyPayload pl = inr data
    /\ Request.Body_ r = Some data
    /\ pl !! "promo_code" =
         match promo with
         | Some p => Some (VStr (PromoCode.Code p))
         | None => None
         end
    /\ (is_Some (pl !! "promo_code") <-> is_Some promo).
Proof.
  intros Hsent.
  destruct (Book_outbound c ticket amount promo tr r rest Hsent)
    as (pl & data & u & Hpl & Hj & Hu & ->).
  exists pl, data. split; [exact Hpl|]. split; [exact Hj|].
  split; [reflexivity|].
  pose proof (Book_payload_promo_code ticket amount promo
                (EvPrintln ticket :: tr)) as Hk.
  rewrite Hpl in Hk. cbn [fst] in Hk. rewrite Hk.
  destruct promo as [p|]; split; try reflexivity.
  - split; intros _; by eexists.
  - split; intros [? ?]; discriminate.
Qed.

Lemma Book_promo_code_witness :
  let E := refEnv true false [inr booking_made] in
  let c := NewClient "ann@example.org" in
  let t := ticket_of 10 1 3 false false in
  let promo := Some (promo_of "SAVE10" 8) in
  exists pl data,
    @jsonifyPayload E pl = inr data
    /\ Request.Body_ (@booking_request E c t 2 promo []) = Some data
    /\ pl !! "promo_code" = Some (VStr "SAVE10").
Proof.
  intros E c t promo.
  destruct (@Book_promo_code E c t 2 promo [] (@booking_request E c t 2 promo [])
              [EvGenKey "key-0"; EvPrintln t])
    as (pl & data & Hpl & Hj & Hb & Hcode & _).
  - vm_compute. reflexivity.
  - exists pl, data. exact (conj Hj (conj Hb Hcode)).
Defined.

Example Book_without_promo_example :
  let E := refEnv true false [inr booking_made] in
  let t := ticket_of 0 0 3 false false in
  @Book_payload E t 2 None [EvPrintln t]
  = (<["amount" := VInt 2]> (<["ticket_id" := VInt 7]> ∅), [EvPrintln t])
  /\ fst (@Book_payload E t 2 None [EvPrintln t]) !! "promo_code" = None
  /\ fst (@Book_payload E t 2 None [EvPrintln t]) !! "purchase_key" = None.
Proof. vm_compute. repeat split. Qed.

(** ** Results and errors of the operations *)

(** What the dispatcher returns with a nil error: the decoded target, whose
    embedded error is empty. *)
Lemma req_nil_error `{Env} {T} `{!responseParams T, !Unmarshal T}
    (c : Client.t) (r : Request.t) (auth : bool) (obj x : T)
    (tr : list event) :
  fst (req c r auth obj tr) = (x, None) ->
  exists body x',
    http_Do tr (outbound c r auth) = inr body
    /\ json_Decode body obj = (x', None)
    /\ error x' = None /\ x = clearError x'.
Proof.
  rewrite req_run. cbn [fst].
  destruct (http_Do tr (outbound c r auth)) as [e|body]; [discriminate|].
  unfold decodeJSONResponse.
  destruct (json_Decode body obj) as [x' [e|]] eqn:Hd; [discriminate|].
  destruct (error x') eqn:He; [discriminate|].
  intros [= <-]. by exists body, x'.
Qed.

Lemma get_nil_error `{Env} {T} `{!responseParams T, !Unmarshal T}
    (c : Client.t) (addr : string) (auth : bool) (obj x : T)
    (tr : list event) :
  fst (get c addr auth obj tr) = (x, None) ->
  exists body x',
    json_Decode body obj = (x', None) /\ error x' = None
    /\ x = clearError x'.
Proof.
  rewrite get_run. destruct (url_String addr); [|discriminate].
  intros Hr. destruct (req_nil_error _ _ _ _ _ _ Hr) as (b & x' & _ & Hx).
  by exists b, x'.
Qed.

Lemma post_nil_error `{Env} {T} `{!responseParams T, !Unmarshal T}
    (c : Client.t) (addr : string) (data : Buffer) (auth : bool) (obj x : T)
    (tr : list event) :
  fst (post c addr data auth obj tr) = (x, None) ->
  exists body x',
    json_Decode body obj = (x', None) /\ error x' = None
    /\ x = clearError x'.
Proof.
  rewrite post_run. destruct (url_String addr); [|discriminate].
  intros Hr. destruct (req_nil_error _ _ _ _ _ _ Hr) as (b & x' & _ & Hx).
  by exists b, x'.
Qed.

Lemma Book_result `{Env} (c : Client.t) (ticket : Ticket.t) (amount : Z)
    (promo : option PromoCode.t) (tr : list event) :
  fst (Book c ticket amount promo tr) =
    if Ticket.SoldOut ticket || Ticket.Expired ticket
       || (amount >? Ticket.Max ticket)
    then (None,
          Some (errors_New
                  (Book_check_msg (literal_in_order (EvPrintln ticket :: tr))
                     ticket)))
    else
      let '(pl, tr1) :=
        Book_payload ticket amount promo (EvPrintln ticket :: tr) in
      match jsonifyPayload pl with
      | inl e => (None, Some e)
      | inr data =>
          tagged "error booking ticket"
            (fst (post c bookingURL data true Booking_zero tr1))
      end.
Proof.
  destruct (Ticket.SoldOut ticket) eqn:Hs;
    [by rewrite Book_check_failed by auto|].
  destruct (Ticket.Expired ticket) eqn:He;
    [by rewrite Book_check_failed by auto|].
  destruct (Z.gtb_spec amount (Ticket.Max ticket)) as [Hgt|Hle];
    [by rewrite Book_check_failed by (right; right; lia)|].
  rewrite (Book_checks_passed c ticket amount promo tr Hs He Hle).
  cbn [orb].
  destruct (Book_payload ticket amount promo (EvPrintln ticket :: tr))
    as [pl tr1].
  destruct (jsonifyPayload pl) as [e|data]; [reflexivity|].
  by destruct (post c bookingURL data true Booking_zero tr1)
    as [[b [e|]] tr2].
Qed.

(** C7 (as amended).  [Event], [Promo] and [Book] return either a result and
    no error, or no result and an error, never both and never neither, and a
    result they return is the target as the decoder filled it.  Each
    operation returns what the dispatcher ([get], [post]) gave it with the
    error, if any, under the tag of the operation; the dispatcher's errors
    are the request-construction error, the transport's error, the decoder's
    error, each under its own tag, and the embedded error.  The error [Book]
    makes itself when a check fails, and the error of [jsonifyPayload] in
    [Logon] and [Book], are returned as they are, without the tag. *)
Theorem operations_result_or_error `{Env} (c : Client.t) (tr : list event) :
  (forall id,
     fst (Event c id tr)
     = tagged "error getting event"
         (fst (get c (eventURL id) false Event_zero tr)))
  /\ (forall ticketID code,
        fst (Promo c ticketID code tr)
        = tagged "error getting promo code"
            (fst (get c (promoURL ticketID code) true PromoCode_zero tr)))
  /\ (forall ticket amount promo,
        fst (Book c ticket amount promo tr) =
          if Ticket.SoldOut ticket || Ticket.Expired ticket
             || (amount >? Ticket.Max ticket)
          then (None,
                Some (errors_New
                        (Book_check_msg
                           (literal_in_order (EvPrintln ticket :: tr))
                           ticket)))
          else
            let '(pl, tr1) :=
              Book_payload ticket amount promo (EvPrintln ticket :: tr) in
            match jsonifyPayload pl with
            | inl e => (None, Some e)
            | inr data =>
                tagged "error booking ticket"
                  (fst (post c bookingURL data true Booking_zero tr1))
            end)
  /\ (forall pass,
        snd (fst (Logon c pass tr)) =
          match jsonifyPayload (Logon_payload c pass) with
          | inl e => Some e
          | inr data =>
              option_map (fun e => errors_Wrap e "error logging on")
                (snd (fst (post c loginURL data false c tr)))
          end)
  /\ (forall (T : Type) (RP : responseParams T) (U : Unmarshal T)
             (addr : string) (auth : bool) (obj : T),
        fst (get c addr auth obj tr) =
          match url_String addr with
          | None => (obj, Some (errors_New "error creating GET request"))
          | Some u =>
              match http_Do tr (outbound c (Request.mk "GET" u ∅ None) auth)
              with
              | inl e => (obj, Some (errors_Wrap e "error executing request"))
              | inr body => decodeJSONResponse body obj
              end
          end)
  /\ (forall (T : Type) (RP : responseParams T) (U : Unmarshal T)
             (addr : string) (data : Buffer) (auth : bool) (obj : T)
             (tr1 : list event),
        fst (post c addr data auth obj tr1) =
          match url_String addr with
          | None => (obj, Some (errors_New "error creating POST request"))
          | Some u =>
              match http_Do tr1
                      (outbound c (Request.mk "POST" u ∅ (Some data)) auth)
              with
              | inl e => (obj, Some (errors_Wrap e "error executing request"))
              | inr body => decodeJSONResponse body obj
              end
          end)
  /\ (forall (T : Type) (RP : responseParams T) (U : Unmarshal T)
             (body : Body) (obj : T),
        snd (decodeJSONResponse body obj) =
          match snd (json_Decode body obj) with
          | Some e => Some (errors_Wrap e "JSON decoding failed")
          | None => error (fst (json_Decode body obj))
          end)
  /\ (forall id,
        (exists ev, fst (Event c id tr) = (Some ev, None)
                    /\ exists body, Decode_Event body Event_zero = (ev, None))
        \/ (exists e, fst (Event c id tr) = (None, Some e)))
  /\ (forall ticketID code,
        (exists p, fst (Promo c ticketID code tr) = (Some p, None)
                   /\ exists body,
                        Decode_PromoCode body PromoCode_zero = (p, None))
        \/ (exists e, fst (Promo c ticketID code tr) = (None, Some e)))
  /\ (forall ticket amount promo,
        (exists b, fst (Book c ticket amount promo tr) = (Some b, None)
                   /\ exists body,
                        Decode_Booking body Booking_zero = (b, None))
        \/ (exists e, fst (Book c ticket amount promo tr) = (None, Some e))).
Proof.
  assert (HEvent : forall id,
    fst (Event c id tr)
    = tagged "error getting event"
        (fst (get c (eventURL id) false Event_zero tr))).
  { intros id. rewrite Event_run.
    by destruct (get c (eventURL id) false Event_zero tr)
      as [[ev [e|]] tr']. }
  assert (HPromo : forall ticketID code,
    fst (Promo c ticketID code tr)
    = tagged "error getting promo code"
        (fst (get c (promoURL ticketID code) true PromoCode_zero tr))).
  { intros ticketID code. rewrite Promo_run.
    by destruct (get c (promoURL ticketID code) true PromoCode_zero tr)
      as [[p [e|]] tr']. }
  split; [exact HEvent|]. split; [exact HPromo|].
  split; [intros; apply Book_result|].
  split.
  { intros pass. rewrite Logon_run. fold (Logon_payload c pass).
    destruct (jsonifyPayload (Logon_payload c pass)) as [e|data];
      [reflexivity|].
    by destruct (post c loginURL data false c tr) as [[c' [e|]] tr']. }
  split.
  { intros T RP U addr auth obj. rewrite get_run.
    destruct (url_String addr); [|reflexivity]. by rewrite req_run. }
  split.
  { intros T RP U addr data auth obj tr1. rewrite post_run.
    destruct (url_String addr); [|reflexivity]. by rewrite req_run. }
  split.
  { intros T RP U body obj. unfold decodeJSONResponse.
    destruct (json_Decode body obj) as [x [e|]]; [reflexivity|].
    cbn [fst snd]. by destruct (error x). }
  split; [|split].
  - intros id. rewrite HEvent. unfold tagged.
    destruct (get c (eventURL id) false Event_zero tr) as [[ev [e|]] tr']
      eqn:Hget; cbn [fst snd]; [right; by eexists|].
    left. exists ev. split; [reflexivity|].
    destruct (get_nil_error c (eventURL id) false Event_zero ev tr)
      as (body & ev' & Hd & He & ->); [by rewrite Hget|].
    exists body. rewrite Event_error_spec in He.
    case_bool_decide as Hempty; [|discriminate].
    by rewrite (Event_clearError_empty ev' Hempty).
  - intros ticketID code. rewrite HPromo. unfold tagged.
    destruct (get c (promoURL ticketID code) true PromoCode_zero tr)
      as [[p [e|]] tr'] eqn:Hget; cbn [fst snd]; [right; by eexists|].
    left. exists p. split; [reflexivity|].
    destruct (get_nil_error c (promoURL ticketID code) true PromoCode_zero
                p tr)
      as (body & p' & Hd & He & ->); [by rewrite Hget|].
    exists body.
    change (error p') with (error (PromoCode.apiError_ p')) in He.
    rewrite apiError_error_spec in He.
    case_bool_decide as Hempty; [|discriminate].
    by rewrite (PromoCode_clearError_empty p' Hempty).
  - intros ticket amount promo. rewrite Book_result.
    destruct (Ticket.SoldOut ticket || Ticket.Expired ticket
              || (amount >? Ticket.Max ticket)); [right; by eexists|].
    destruct (Book_payload ticket amount promo (EvPrintln ticket :: tr))
      as [pl tr1].
    destruct (jsonifyPayload pl) as [e|data]; [right; by eexists|].
    unfold tagged.
    destruct (post c bookingURL data true Booking_zero tr1)
      as [[b [e|]] tr2] eqn:Hpost; cbn [fst snd]; [right; by eexists|].
    left. exists b. split; [reflexivity|].
    destruct (post_nil_error c bookingURL data true Booking_zero b tr1)
      as (body & b' & Hd & He & ->); [by rewrite Hpost|].
    exists body.
    change (error b') with (error (Booking.apiError_ b')) in He.
    rewrite apiError_error_spec in He.
    case_bool_decide as Hempty; [|discriminate].
    by rewrite (Booking_clearError_empty b' Hempty).
Qed.

(** C7 (as stated) fails: the error of a failed check leaves [Book] as it was
    made, without the tag of the operation. *)
Lemma Book_check_error_not_wrapped :
  let t := ticket_of 10 1 3 true false in
  let res := fst (@Book (refEnv true false [inr booking_made])
                    (NewClient "ann@example.org") t 1 None []) in
  res = (None, Some (errors_New "ticket selection has sold out"))
  /\ (forall cause, snd res <> Some (errors_Wrap cause "error booking ticket"))
  /\ Contains (Error_string (errors_New "ticket selection has sold out"))
       "error booking ticket" = false.
Proof.
  vm_compute. split; [reflexivity|]. split; [|reflexivity].
  intros cause. discriminate.
Qed.

(** ** The headers of a request *)

Example canonical_keys :
  CanonicalMIMEHeaderKey "User-Agent" = "User-Agent"
  /\ CanonicalMIMEHeaderKey "Authorization" = "Authorization"
  /\ CanonicalMIMEHeaderKey "Content-Type" = "Content-Type"
  /\ CanonicalMIMEHeaderKey "FIXR-Platform" = "Fixr-Platform"
  /\ CanonicalMIMEHeaderKey "FIXR-Platform-Version" = "Fixr-Platform-Version"
  /\ CanonicalMIMEHeaderKey "FIXR-App-Version" = "Fixr-App-Version".
Proof. vm_compute. repeat split. Qed.

Lemma req_headers_run `{Env} (c : Client.t) (r : Request.t) (auth : bool) :
  req_headers c r auth =
    let h := <["User-Agent" := [UserAgent]]> (Request.Header_ r) in
    let h :=
      if auth
      then <["Authorization" := ["Token " +:+ Client.AuthToken c]]> h
      else h in
    if String.eqb (Request.URL r) cardURL
    then <["Content-Type" := ["application/x-www-form-urlencoded"]]> h
    else <["FIXR-App-Version" := [FixrVersion]]>
           (<["FIXR-Platform-Version" := [FixrPlatformVer]]>
              (<["FIXR-Platform" := ["web"]]>
                 (<["Content-Type" := ["application/json"]]> h))).
Proof. reflexivity. Qed.

(** C8.  The request [req] hands to the transport carries: the form content
    type when its URL is the card endpoint; otherwise the JSON content type
    and the three vendor headers under the keys as they are spelled in the
    source, the canonical spellings being left as the request had them; and,
    for an authenticated call, [Authorization: Token <AuthToken>], which is
    [Token ] followed by nothing while the token is empty. *)
Theorem req_sets_headers `{Env} {T} `{!responseParams T, !Unmarshal T}
    (c : Client.t) (r : Request.t) (auth : bool) (obj : T)
    (tr : list event) :
  let sent := outbound c r auth in
  let h := Request.Header_ sent in
  snd (req c r auth obj tr) = EvDo sent :: tr
  /\ (Request.URL r = cardURL ->
      h !! "Content-Type" = Some ["application/x-www-form-urlencoded"])
  /\ (Request.URL r <> cardURL ->
      h !! "Content-Type" = Some ["application/json"]
      /\ h !! "FIXR-Platform" = Some ["web"]
      /\ h !! "FIXR-Platform-Version" = Some [FixrPlatformVer]
      /\ h !! "FIXR-App-Version" = Some [FixrVersion]
      /\ h !! "Fixr-Platform" = Request.Header_ r !! "Fixr-Platform"
      /\ h !! "Fixr-Platform-Version"
         = Request.Header_ r !! "Fixr-Platform-Version"
      /\ h !! "Fixr-App-Version" = Request.Header_ r !! "Fixr-App-Version")
  /\ (auth = true ->
      h !! "Authorization" = Some ["Token " +:+ Client.AuthToken c]
      /\ (Client.AuthToken c = "" -> h !! "Authorization" = Some ["Token "])).
Proof.
  intros sent h. subst h sent. split; [by rewrite req_run|].
  unfold outbound. cbn [Request_set_Header Request.Header_].
  rewrite req_headers_run. cbn zeta.
  destruct (String.eqb_spec (Request.URL r) cardURL) as [Hcard|Hcard].
  - split; [intros _; by simplify_map_eq|].
    split; [done|].
    intros ->. split; [by simplify_map_eq|]. intros ->. by simplify_map_eq.
  - split; [done|].
    split; [intros _; destruct auth; repeat split; by simplify_map_eq|].
    intros ->. split; [by simplify_map_eq|]. intros ->. by simplify_map_eq.
Qed.

Lemma req_sets_headers_witness :
  let E := refEnv true false [inr booking_made] in
  let c := NewClient "ann@example.org" in
  let r := Request.mk "POST" bookingURL ∅ (Some "{}") in
  let h := Request.Header_ (@outbound E c r true) in
  h !! "Content-Type" = Some ["application/json"]
  /\ h !! "FIXR-Platform" = Some ["web"]
  /\ h !! "FIXR-Platform-Version" = Some ["Chrome/51.0.2704.103"]
  /\ h !! "FIXR-App-Version" = Some ["1.34.0"]
  /\ h !! "Fixr-Platform" = None
  /\ h !! "Authorization" = Some ["Token "].
Proof.
  intros E c r h.
  destruct (@req_sets_headers E Booking.t _ _ c r true Booking_zero [])
    as (_ & _ & Hjson & Hauth).
  destruct Hjson as (H1 & H2 & H3 & H4 & H5 & _); [discriminate|].
  destruct (Hauth eq_refl) as [_ Hempty].
  exact (conj H1 (conj H2 (conj H3 (conj H4 (conj H5 (Hempty eq_refl)))))).
Defined.

Example req_card_example :
  let E := refEnv true false [] in
  let c := NewClient "ann@example.org" in
  let r := Request.mk "POST" cardURL ∅ (Some "card=1") in
  let h := Request.Header_ (@outbound E c r false) in
  h !! "Content-Type" = Some ["application/x-www-form-urlencoded"]
  /\ h !! "FIXR-Platform" = None
  /\ h !! "Authorization" = None.
Proof. vm_compute. repeat split. Qed.

(** ** Logon *)

(** C9.  When the login request is answered with a body that parses and
    carries a non-empty embedded error, [Logon] returns that error, wrapped,
    and leaves the client as the decoder wrote it, with the error cleared:
    [FirstName], [LastName], [MagicURL], [AuthToken] and [StripeUser] are
    those of the answer, so the client differs from the one before the call
    as soon as one of them does. *)
Theorem Logon_not_atomic `{Env} (c : Client.t) (pass : string)
    (tr : list event) (data : Buffer) (u : string) (body : Body)
    (c' : Client.t) :
  jsonifyPayload (<["password" := VStr pass]>
                    (<["email" := VStr (Client.Email c)]> ∅)) = inr data ->
  url_String loginURL = Some u ->
  http_Do tr (outbound c (Request.mk "POST" u ∅ (Some data)) false)
    = inr body ->
  Decode_Client body c = (c', None) ->
  apiError.Error (Client.apiError_ c') <> "" ->
  let after := fst (fst (Logon c pass tr)) in
  snd (fst (Logon c pass tr))
    = Some (errors_Wrap (errors_New (apiError.Error (Client.apiError_ c')))
              "error logging on")
  /\ after = Client_set_apiError c' (apiError.mk "")
  /\ Client.FirstName after = Client.FirstName c'
  /\ Client.LastName after = Client.LastName c'
  /\ Client.MagicURL after = Client.MagicURL c'
  /\ Client.AuthToken after = Client.AuthToken c'
  /\ Client.StripeUser after = Client.StripeUser c'
  /\ (Client.FirstName c' <> Client.FirstName c
      \/ Client.LastName c' <> Client.LastName c
      \/ Client.MagicURL c' <> Client.MagicURL c
      \/ Client.AuthToken c' <> Client.AuthToken c
      \/ Client.StripeUser c' <> Client.StripeUser c ->
      after <> c).
Proof.
  intros Hj Hu Hdo Hdec Herr after. subst after.
  rewrite Logon_run, Hj, post_run, Hu.
  rewrite (req_parsed c _ false c c' tr body Hdo Hdec).
  cbn [fst snd].
  change (error c') with (error (Client.apiError_ c')).
  rewrite apiError_error_spec. case_bool_decide; [done|].
  repeat split.
  destruct c as [a em fn ln mu tok su], c' as [a' em' fn' ln' mu' tok' su'].
  cbn. intros Hdiff [= _ _ -> -> -> -> ->]. tauto.
Qed.

Lemma Logon_not_atomic_witness :
  let E := refEnv true false [inr login_refused] in
  let c := NewClient "ann@example.org" in
  let after := fst (fst (@Logon E c "secret" [])) in
  snd (fst (@Logon E c "secret" []))
    = Some (errors_Wrap (errors_New "Incorrect password") "error logging on")
  /\ after = Client.mk (apiError.mk "") "ann@example.org" "Ann" "" "" "tok-1"
               None
  /\ after <> c.
Proof.
  intros E c after.
  destruct (@Logon_not_atomic E c "secret" []
              (match ref_jsonifyPayload
                       (<["password" := VStr "secret"]>
                          (<["email" := VStr "ann@example.org"]> ∅)) with
               | inr d => d
               | inl _ => ""
               end)
              loginURL login_refused
              (Client.mk (apiError.mk "Incorrect password") "ann@example.org"
                 "Ann" "" "" "tok-1" None)
              eq_refl eq_refl eq_refl eq_refl)
    as (Herr & Hafter & _ & _ & _ & _ & _ & Hchanged).
  - discriminate.
  - refine (conj Herr (conj Hafter (Hchanged _))).
    left. discriminate.
Defined.

(** What the parse-failure path of the envelope allows: an ill-typed answer
    leaves its message on the client, and the next logon, though accepted,
    reports that message. *)
Example Logon_reports_earlier_message :
  let E := refEnv true false [inr login_ill_typed; inr login_accepted] in
  let '((c1, e1), tr1) := @Logon E (NewClient "ann@example.org") "secret" [] in
  let '((c2, e2), _) := @Logon E c1 "secret" tr1 in
  Client.apiError_ c1 = apiError.mk "Too many attempts"
  /\ e2 = Some (errors_Wrap (errors_New "Too many attempts")
                  "error logging on")
  /\ Client.AuthToken c2 = "tok-2".
Proof. vm_compute. repeat split. Qed.

(** ** Booking and the promo *)

(** C10.  [Book] reads of the promo only whether it is nil and its [Code]:
    two promos with the same code give the same payload and the same run of
    [Book], whatever their other fields; and when a check fails the promo is
    not read at all. *)
Theorem Book_promo_only_through_Code `{Env} (c : Client.t)
    (ticket : Ticket.t) (amount : Z) (p1 p2 : PromoCode.t)
    (tr : list event) :
  PromoCode.Code p1 = PromoCode.Code p2 ->
  Book c ticket amount (Some p1) tr = Book c ticket amount (Some p2) tr
  /\ (forall tr', Book_payload ticket amount (Some p1) tr'
                  = Book_payload ticket amount (Some p2) tr')
  /\ (Ticket.SoldOut ticket = true \/ Ticket.Expired ticket = true
      \/ amount > Ticket.Max ticket ->
      forall promo promo',
        Book c ticket amount promo tr = Book c ticket amount promo' tr).
Proof.
  intros Hcode.
  assert (Hpl : forall tr', Book_payload ticket amount (Some p1) tr'
                            = Book_payload ticket amount (Some p2) tr').
  { intros tr'. rewrite !Book_payload_run. cbn zeta. by rewrite Hcode. }
  split; [|split; [exact Hpl|]].
  - unfold Book. run. rewrite Book_range.
    destruct (Ticket.SoldOut ticket || Ticket.Expired ticket); [reflexivity|].
    destruct (amount >? Ticket.Max ticket); [reflexivity|].
    by rewrite Hpl.
  - intros Hc promo promo'. by rewrite !Book_check_failed.
Qed.

Lemma Book_promo_only_through_Code_witness :
  let E := refEnv true false [inr booking_made] in
  let c := NewClient "ann@example.org" in
  let t := ticket_of 10 1 3 false false in
  let p1 := PromoCode.mk apiError_zero "SAVE10" 8%float 0%float "GBP" 2 10 in
  let p2 :=
    PromoCode.mk (apiError.mk "old") "SAVE10" 1%float 5%float "EUR" 9 0 in
  @Book E c t 2 (Some p1) [] = @Book E c t 2 (Some p2) [].
Proof.
  intros E c t p1 p2.
  exact (proj1 (@Book_promo_only_through_Code E c t 2 p1 p2 [] eq_refl)).
Defined.

(** * Further properties of the operations *)

(** ** Parsed answers of [Promo] and [Book] *)

Lemma Promo_parsed_response_witness :
  let E := refEnv true false [inr promo_unknown] in
  fst (@Promo E logged_in 7 "SAVE10" [])
  = (None,
     Some (errors_Wrap (errors_New "Invalid promo code")
             "error getting promo code"))
  /\ mentions (errors_Wrap (errors_New "Invalid promo code")
                 "error getting promo code") "Invalid promo code".
Proof.
  exact (@Promo_parsed_response (refEnv true false [inr promo_unknown])
           logged_in 7 "SAVE10" [] (promoURL 7 "SAVE10") promo_unknown
           (PromoCode.mk (apiError.mk "Invalid promo code") "" 0%float 0%float
              "" 0 0)
           eq_refl eq_refl eq_refl).
Defined.

Example Promo_found_example :
  fst (@Promo (refEnv true false [inr promo_found]) logged_in 7 "SAVE10" [])
  = (Some (PromoCode.mk apiError_zero "SAVE10" 8%float 0%float "GBP" 2 10),
     None).
Proof. vm_compute. reflexivity. Qed.

Lemma Book_parsed_response_witness :
  let E := refEnv true false [inr booking_refused] in
  let t := ticket_of 10 1 3 false false in
  fst (@Book E logged_in t 2 None [])
  = (None,
     Some (errors_Wrap (errors_New "Card declined") "error booking ticket"))
  /\ mentions (errors_Wrap (errors_New "Card declined") "error booking ticket")
       "Card declined".
Proof.
  intros E t.
  refine (@Book_parsed_response E logged_in t 2 None []
            [EvGenKey "key-0"; EvPrintln t]
            (fst (@Book_payload E t 2 None [EvPrintln t]))
            (match ref_jsonifyPayload
                     (fst (@Book_payload E t 2 None [EvPrintln t])) with
             | inr d => d
             | inl _ => ""
             end)
            bookingURL booking_refused
            (Booking.mk (apiError.mk "Card declined") Event_zero "" "" 0)
            eq_refl eq_refl _ eq_refl eq_refl eq_refl eq_refl eq_refl).
  vm_compute. discriminate.
Defined.

(** ** Logon and the client *)

Lemma Client_clearError_empty (c : Client.t) :
  error c = None -> clearError c = c.
Proof.
  destruct c as [[[|a s]] em fn ln mu tok su]; [reflexivity|discriminate].
Qed.

(** X3.  [Logon] returns a nil error only when its request was sent and
    answered with a body that decoded without error and with an empty
    message; the client is then exactly what the decoder produced, it reports
    no error, and the request is the only thing the call did. *)
Theorem Logon_nil_error `{Env} (c : Client.t) (pass : string)
    (tr : list event) :
  snd (fst (Logon c pass tr)) = None ->
  exists data u body,
    jsonifyPayload (Logon_payload c pass) = inr data
    /\ url_String loginURL = Some u
    /\ http_Do tr (outbound c (Request.mk "POST" u ∅ (Some data)) false)
       = inr body
    /\ Decode_Client body c = (fst (fst (Logon c pass tr)), None)
    /\ error (fst (fst (Logon c pass tr))) = None
    /\ snd (Logon c pass tr)
       = EvDo (outbound c (Request.mk "POST" u ∅ (Some data)) false) :: tr.
Proof.
  rewrite Logon_run. fold (Logon_payload c pass).
  destruct (jsonifyPayload (Logon_payload c pass)) as [e|data] eqn:Hj;
    [discriminate|].
  rewrite post_run.
  destruct (url_String loginURL) as [u|] eqn:Hu; [|discriminate].
  rewrite req_run.
  destruct (http_Do tr _) as [e|body] eqn:Hdo; [discriminate|].
  unfold decodeJSONResponse.
  change (@json_Decode _ Client.t _) with Decode_Client.
  destruct (Decode_Client body c) as [c' [e|]] eqn:Hdec; [discriminate|].
  destruct (error c') as [e|] eqn:Herr; [discriminate|].
  intros _. exists data, u, body. cbn [fst snd].
  rewrite (Client_clearError_empty c' Herr).
  by rewrite Hdec, Herr.
Qed.

Lemma Logon_nil_error_witness :
  let E := refEnv true false [inr login_accepted] in
  let c := NewClient "ann@example.org" in
  exists body,
    @http_Do E [] (@outbound E c
                     (Request.mk "POST" loginURL ∅
                        (match @jsonifyPayload E (Logon_payload c "secret")
                         with inr d => Some d | inl _ => None end))
                     false)
    = inr body
    /\ @Decode_Client E body c = (logged_in, None)
    /\ fst (fst (@Logon E c "secret" [])) = logged_in.
Proof.
  intros E c.
  destruct (@Logon_nil_error E c "secret" [] eq_refl)
    as (data & u & body & Hj & Hu & Hdo & Hdec & _ & _).
  exists body.
  assert (Hafter : fst (fst (@Logon E c "secret" [])) = logged_in)
    by (vm_compute; reflexivity).
  rewrite Hafter in Hdec.
  injection Hj as <-. injection Hu as <-.
  exact (conj Hdo (conj Hdec Hafter)).
Defined.

(** X4.  [Logon] leaves the client as it was, and returns an error, whenever
    no response body arrives: when the payload does not encode, when the
    address does not parse, and when the transport fails. *)
Theorem Logon_keeps_client_without_response `{Env} (c : Client.t)
    (pass : string) (tr : list event) :
  (forall data u body,
     jsonifyPayload (Logon_payload c pass) = inr data ->
     url_String loginURL = Some u ->
     http_Do tr (outbound c (Request.mk "POST" u ∅ (Some data)) false)
     <> inr body) ->
  fst (fst (Logon c pass tr)) = c
  /\ snd (fst (Logon c pass tr)) <> None.
Proof.
  intros Hno. rewrite Logon_run. fold (Logon_payload c pass).
  destruct (jsonifyPayload (Logon_payload c pass)) as [e|data] eqn:Hj;
    [done|].
  rewrite post_run.
  destruct (url_String loginURL) as [u|] eqn:Hu; [|done].
  rewrite req_run.
  destruct (http_Do tr _) as [e|body] eqn:Hdo; [done|].
  by destruct (Hno data u body eq_refl eq_refl).
Qed.

Lemma Logon_keeps_client_without_response_witness :
  let E := refEnv true false [] in
  fst (fst (@Logon E logged_in "secret" [])) = logged_in
  /\ snd (fst (@Logon E logged_in "secret" [])) <> None.
Proof.
  intros E.
  apply (@Logon_keeps_client_without_response E logged_in "secret" []).
  intros data u body _ _. simpl. discriminate.
Defined.

(** ** What the operations send *)

Lemma outbound_Authorization `{Env} (c : Client.t) (r : Request.t)
    (auth : bool) :
  Request.Header_ (outbound c r auth) !! "Authorization" =
    if auth then Some ["Token " +:+ Client.AuthToken c]
    else Request.Header_ r !! "Authorization".
Proof.
  unfold outbound. cbn [Request_set_Header Request.Header_].
  rewrite req_headers_run. cbn zeta.
  destruct (String.eqb (Request.URL r) cardURL), auth; by simplify_map_eq.
Qed.

Lemma outbound_User_Agent `{Env} (c : Client.t) (r : Request.t)
    (auth : bool) :
  Request.Header_ (outbound c r auth) !! "User-Agent" = Some [UserAgent].
Proof.
  unfold outbound. cbn [Request_set_Header Request.Header_].
  rewrite req_headers_run. cbn zeta.
  destruct (String.eqb (Request.URL r) cardURL), auth; by simplify_map_eq.
Qed.

Lemma outbound_unauthenticated `{Env} (c1 c2 : Client.t) (r : Request.t) :
  outbound c1 r false = outbound c2 r false.
Proof. reflexivity. Qed.

Lemma requests_cons_Do (r : Request.t) (tr : list event) :
  requests (EvDo r :: tr) = r :: requests tr.
Proof. reflexivity. Qed.

(** The trace of [get] and [post]: nothing when the address does not parse,
    the request otherwise. *)
Lemma get_trace `{Env} {T} `{!responseParams T, !Unmarshal T}
    (c : Client.t) (addr : string) (auth : bool) (obj : T) (tr : list event) :
  snd (get c addr auth obj tr) =
    match url_String addr with
    | None => tr
    | Some u => EvDo (outbound c (Request.mk "GET" u ∅ None) auth) :: tr
    end.
Proof.
  rewrite get_run. destruct (url_String addr); [|reflexivity].
  by rewrite req_run.
Qed.

Lemma post_trace `{Env} {T} `{!responseParams T, !Unmarshal T}
    (c : Client.t) (addr : string) (data : Buffer) (auth : bool) (obj : T)
    (tr : list event) :
  snd (post c addr data auth obj tr) =
    match url_String addr with
    | None => tr
    | Some u => EvDo (outbound c (Request.mk "POST" u ∅ (Some data)) auth) :: tr
    end.
Proof.
  rewrite post_run. destruct (url_String addr); [|reflexivity].
  by rewrite req_run.
Qed.

Lemma Event_trace `{Env} (c : Client.t) (id : Z) (tr : list event) :
  snd (Event c id tr) = snd (get c (eventURL id) false Event_zero tr).
Proof.
  rewrite Event_run.
  by destruct (get c (eventURL id) false Event_zero tr) as [[ev e] tr'].
Qed.

Lemma Promo_trace `{Env} (c : Client.t) (ticketID : Z) (code : string)
    (tr : list event) :
  snd (Promo c ticketID code tr)
  = snd (get c (promoURL ticketID code) true PromoCode_zero tr).
Proof.
  rewrite Promo_run.
  by destruct (get c (promoURL ticketID code) true PromoCode_zero tr)
    as [[p e] tr'].
Qed.

Lemma Logon_trace `{Env} (c : Client.t) (pass : string) (tr : list event) :
  snd (Logon c pass tr) =
    match jsonifyPayload (Logon_payload c pass) with
    | inl _ => tr
    | inr data => snd (post c loginURL data false c tr)
    end.
Proof.
  rewrite Logon_run. fold (Logon_payload c pass).
  destruct (jsonifyPayload (Logon_payload c pass)) as [e|data];
    [reflexivity|].
  by destruct (post c loginURL data false c tr) as [[c' e] tr'].
Qed.

(** X5.  [Event] does not depend on the client it is called on: two clients,
    whatever their tokens and profiles, get the same result and leave the
    same trace. *)
Theorem Event_independent_of_client `{Env} (c1 c2 : Client.t) (id : Z)
    (tr : list event) :
  Event c1 id tr = Event c2 id tr.
Proof.
  rewrite !Event_run, !get_run.
  destruct (url_String (eventURL id)) as [u|]; [|reflexivity].
  by rewrite !req_run, (outbound_unauthenticated c1 c2).
Qed.

(** X6.  When the address of the event parses, [Event] sends one request and
    does nothing else: a GET without a body to that address, with the
    package's user agent and without an [Authorization] header, even when the
    client holds a token. *)
Theorem Event_request `{Env} (c : Client.t) (id : Z) (tr : list event)
    (u : string) :
  url_String (eventURL id) = Some u ->
  exists r,
    snd (Event c id tr) = EvDo r :: tr
    /\ Request.Method r = "GET"
    /\ Request.URL r = u
    /\ Request.Body_ r = None
    /\ Request.Header_ r !! "Authorization" = None
    /\ Request.Header_ r !! "User-Agent" = Some [UserAgent].
Proof.
  intros Hu. rewrite Event_trace, get_trace, Hu.
  eexists. split; [reflexivity|].
  by rewrite outbound_Authorization, outbound_User_Agent.
Qed.

Lemma Event_request_witness :
  let E := refEnv true false [inr event_found] in
  exists r,
    snd (@Event E logged_in 42 []) = [EvDo r]
    /\ Request.Method r = "GET"
    /\ Request.URL r = "https://api.fixr-app.com/api/v2/app/event/42"
    /\ Request.Body_ r = None
    /\ Request.Header_ r !! "Authorization" = None.
Proof.
  intros E.
  destruct (@Event_request E logged_in 42 [] (eventURL 42) eq_refl)
    as (r & Htr & Hm & Hu & Hb & Ha & _).
  exists r. exact (conj Htr (conj Hm (conj Hu (conj Hb Ha)))).
Defined.

(** X7.  When the address of the promo code parses, [Promo] sends one request
    and does nothing else: a GET without a body to that address that carries
    [Authorization: Token <AuthToken>] with the token of the client it is
    called on. *)
Theorem Promo_request `{Env} (c : Client.t) (ticketID : Z) (code : string)
    (tr : list event) (u : string) :
  url_String (promoURL ticketID code) = Some u ->
  exists r,
    snd (Promo c ticketID code tr) = EvDo r :: tr
    /\ Request.Method r = "GET"
    /\ Request.URL r = u
    /\ Request.Body_ r = None
    /\ Request.Header_ r !! "Authorization"
       = Some ["Token " +:+ Client.AuthToken c].
Proof.
  intros Hu. rewrite Promo_trace, get_trace, Hu.
  eexists. split; [reflexivity|].
  by rewrite outbound_Authorization.
Qed.

Lemma Promo_request_witness :
  let E := refEnv true false [inr promo_found] in
  exists r,
    snd (@Promo E logged_in 7 "SAVE10" []) = [EvDo r]
    /\ Request.URL r
       = "https://api.fixr-app.com/api/v2/app/promo_code/7/SAVE10"
    /\ Request.Header_ r !! "Authorization" = Some ["Token tok-2"].
Proof.
  intros E.
  destruct (@Promo_request E logged_in 7 "SAVE10" [] (promoURL 7 "SAVE10")
              eq_refl)
    as (r & Htr & _ & Hu & _ & Ha).
  exists r. exact (conj Htr (conj Hu Ha)).
Defined.

(** X8.  When the address does not parse, [Promo] returns no promo and the
    request-construction error under its tag, and sends nothing.  The code is
    pasted into the address as it is, so a code with a control character is
    such a case. *)
Theorem Promo_address_rejected `{Env} (c : Client.t) (ticketID : Z)
    (code : string) (tr : list event) :
  url_String (promoURL ticketID code) = None ->
  Promo c ticketID code tr
  = ((None,
      Some (errors_Wrap (errors_New "error creating GET request")
              "error getting promo code")),
     tr)
  /\ Error_string (errors_Wrap (errors_New "error creating GET request")
                     "error getting promo code")
     = "error getting promo code: error creating GET request".
Proof.
  intros Hu. split; [|reflexivity].
  by rewrite Promo_run, get_run, Hu.
Qed.

Lemma Promo_address_rejected_witness :
  let E := refEnv true false [inr promo_found] in
  @Promo E logged_in 7 (String "010"%char "SAVE10") []
  = ((None,
      Some (errors_Wrap (errors_New "error creating GET request")
              "error getting promo code")),
     []).
Proof.
  intros E.
  exact (proj1 (@Promo_address_rejected E logged_in 7
                  (String "010"%char "SAVE10") [] eq_refl)).
Defined.

(** X9.  When the payload encodes and the address parses, [Logon] sends one
    request and does nothing else: a POST to the login address whose body is
    the encoding of a payload with exactly the two members [email], the
    client's, and [password], the argument; it carries no [Authorization]
    header, whatever token the client holds. *)
Theorem Logon_request `{Env} (c : Client.t) (pass : string)
    (tr : list event) (data : Buffer) (u : string) :
  jsonifyPayload (Logon_payload c pass) = inr data ->
  url_String loginURL = Some u ->
  exists r,
    snd (Logon c pass tr) = EvDo r :: tr
    /\ Request.Method r = "POST"
    /\ Request.URL r = u
    /\ Request.Body_ r = Some data
    /\ Request.Header_ r !! "Authorization" = None
    /\ Logon_payload c pass !! "email" = Some (VStr (Client.Email c))
    /\ Logon_payload c pass !! "password" = Some (VStr pass)
    /\ dom (Logon_payload c pass) = {["email"; "password"]}.
Proof.
  intros Hj Hu. rewrite Logon_trace, Hj, post_trace, Hu.
  eexists. split; [reflexivity|].
  rewrite outbound_Authorization. unfold Logon_payload.
  do 4 (split; [reflexivity|]).
  split; [by simplify_map_eq|]. split; [by simplify_map_eq|].
  rewrite !dom_insert_L, dom_empty_L. set_solver.
Qed.

Lemma Logon_request_witness :
  let E := refEnv true false [inr login_accepted] in
  exists r data,
    snd (@Logon E logged_in "secret" []) = [EvDo r]
    /\ Request.Body_ r = Some data
    /\ @jsonifyPayload E (Logon_payload logged_in "secret") = inr data
    /\ Request.Header_ r !! "Authorization" = None.
Proof.
  intros E.
  destruct (@Logon_request E logged_in "secret" []
              (match ref_jsonifyPayload (Logon_payload logged_in "secret") with
               | inr d => d
               | inl _ => ""
               end)
              loginURL eq_refl eq_refl)
    as (r & Htr & _ & _ & Hb & Ha & _).
  exists r. eexists. exact (conj Htr (conj Hb (conj eq_refl Ha))).
Defined.

(** X10.  The token of a logon is the token of the next call: when [Logon]
    returns a nil error, the client it leaves holds the [AuthToken] the
    decoder stored from the answer, and a [Promo] on that client sends
    [Authorization: Token] followed by that token. *)
Theorem Logon_then_Promo_token `{Env} (c c1 : Client.t) (pass : string)
    (tr tr1 : list event) (ticketID : Z) (code u : string) :
  Logon c pass tr = ((c1, None), tr1) ->
  url_String (promoURL ticketID code) = Some u ->
  exists body r,
    Decode_Client body c = (c1, None)
    /\ snd (Promo c1 ticketID code tr1) = EvDo r :: tr1
    /\ Request.Header_ r !! "Authorization"
       = Some ["Token " +:+ Client.AuthToken c1].
Proof.
  intros Hlogon Hu.
  assert (Hdec : exists body, Decode_Client body c = (c1, None)).
  { revert Hlogon. rewrite Logon_run.
    destruct (jsonifyPayload _) as [e|data]; [discriminate|].
    rewrite post_run. destruct (url_String loginURL); [|discriminate].
    rewrite req_run. destruct (http_Do tr _) as [e|body]; [discriminate|].
    unfold decodeJSONResponse.
    change (@json_Decode _ Client.t _) with Decode_Client.
    destruct (Decode_Client body c) as [c' [e|]] eqn:Hd; [discriminate|].
    destruct (error c') as [e|] eqn:Herr; [discriminate|].
    rewrite (Client_clearError_empty c' Herr).
    intros [= <- _]. by exists body. }
  destruct Hdec as [body Hdec]. exists body.
  rewrite Promo_trace, get_trace, Hu.
  eexists. split; [exact Hdec|]. split; [reflexivity|].
  by rewrite outbound_Authorization.
Qed.

Lemma Logon_then_Promo_token_witness :
  let E := refEnv true false [inr login_accepted; inr promo_found] in
  let c := NewClient "ann@example.org" in
  exists r,
    snd (@Promo E logged_in 7 "SAVE10" (snd (@Logon E c "secret" [])))
    = EvDo r :: snd (@Logon E c "secret" [])
    /\ Request.Header_ r !! "Authorization" = Some ["Token tok-2"].
Proof.
  intros E c.
  destruct (@Logon_then_Promo_token E c logged_in "secret" []
              (snd (@Logon E c "secret" [])) 7 "SAVE10" (promoURL 7 "SAVE10"))
    as (body & r & _ & Htr & Ha).
  - vm_compute. reflexivity.
  - reflexivity.
  - exists r. exact (conj Htr Ha).
Defined.

(** ** What a booking sends *)

(** X11.  The payload of a booking always has [ticket_id], the ticket's [ID],
    and [amount], the argument, and never a member other than these two,
    [purchase_key] and [promo_code]: no price, fee or currency of the ticket
    or of the promo is sent. *)
Theorem Book_payload_members `{Env} (ticket : Ticket.t) (amount : Z)
    (promo : option PromoCode.t) (tr : list event) :
  let pl := fst (Book_payload ticket amount promo tr) in
  pl !! "ticket_id" = Some (VInt (Ticket.ID ticket))
  /\ pl !! "amount" = Some (VInt amount)
  /\ (forall k,
        k ∉ ["ticket_id"; "amount"; "purchase_key"; "promo_code"] ->
        pl !! k = None).
Proof.
  intros pl. subst pl. rewrite Book_payload_run. cbn zeta. cbn [fst].
  split; [|split].
  - destruct (paid ticket), promo; by simplify_map_eq.
  - destruct (paid ticket), promo; by simplify_map_eq.
  - intros k Hk.
    assert (k <> "ticket_id" /\ k <> "amount" /\ k <> "purchase_key"
            /\ k <> "promo_code") as (H1 & H2 & H3 & H4).
    { repeat split; intros ->; apply Hk; set_solver. }
    destruct (paid ticket), promo; by simplify_map_eq.
Qed.

Lemma Book_payload_members_witness :
  let E := refEnv true false [] in
  let pl := fst (@Book_payload E (ticket_of 10 1 3 false false) 2
                   (Some (promo_of "SAVE10" 8)) []) in
  pl !! "ticket_id" = Some (VInt 7)
  /\ pl !! "amount" = Some (VInt 2)
  /\ pl !! "price" = None.
Proof.
  intros E pl.
  destruct (@Book_payload_members E (ticket_of 10 1 3 false false) 2
              (Some (promo_of "SAVE10" 8)) [])
    as (Hid & Hamount & Hother).
  refine (conj Hid (conj Hamount (Hother "price" _))).
  apply (bool_decide_unpack _). vm_compute. exact I.
Defined.

Lemma Book_payload_requests `{Env} (ticket : Ticket.t) (amount : Z)
    (promo : option PromoCode.t) (tr : list event) :
  requests (snd (Book_payload ticket amount promo tr)) = requests tr.
Proof.
  rewrite Book_payload_run. cbn zeta. cbn [snd].
  by destruct (paid ticket).
Qed.

(** X12.  When the ticket is neither sold out nor expired and the amount does
    not exceed [Max], the payload encodes and the address parses, [Book]
    sends exactly one request: a POST to the booking address whose body is
    the encoded payload, with [Authorization: Token <AuthToken>].  Nothing
    else is checked before: not [Invalid], and not that the amount is
    positive. *)
Theorem Book_sends_when_checks_pass `{Env} (c : Client.t)
    (ticket : Ticket.t) (amount : Z) (promo : option PromoCode.t)
    (tr tr1 : list event) (pl : payload) (data : Buffer) (u : string) :
  Ticket.SoldOut ticket = false -> Ticket.Expired ticket = false ->
  amount <= Ticket.Max ticket ->
  Book_payload ticket amount promo (EvPrintln ticket :: tr) = (pl, tr1) ->
  jsonifyPayload pl = inr data ->
  url_String bookingURL = Some u ->
  exists r,
    snd (Book c ticket amount promo tr) = EvDo r :: tr1
    /\ requests (snd (Book c ticket amount promo tr)) = r :: requests tr
    /\ Request.Method r = "POST"
    /\ Request.URL r = u
    /\ Request.Body_ r = Some data
    /\ Request.Header_ r !! "Authorization"
       = Some ["Token " +:+ Client.AuthToken c].
Proof.
  intros Hs He Hle Hpl Hj Hu.
  rewrite (Book_checks_passed c ticket amount promo tr Hs He Hle).
  rewrite Hpl, Hj.
  pose proof (post_trace c bookingURL data true Booking_zero tr1) as Htr.
  rewrite Hu in Htr.
  destruct (post c bookingURL data true Booking_zero tr1) as [[b e] tr2].
  cbn [snd] in Htr |- *. subst tr2.
  eexists. split; [reflexivity|]. rewrite requests_cons_Do.
  pose proof (Book_payload_requests ticket amount promo (EvPrintln ticket :: tr))
    as Hreq.
  rewrite Hpl in Hreq. cbn [snd] in Hreq. rewrite Hreq.
  split; [reflexivity|]. by rewrite outbound_Authorization.
Qed.

Lemma Book_sends_when_checks_pass_witness :
  let E := refEnv true false [inr booking_made] in
  let t := ticket_not_yet_valid in
  exists r,
    snd (@Book E logged_in t 0 None []) = [EvDo r; EvPrintln t]
    /\ Request.Method r = "POST"
    /\ Request.Header_ r !! "Authorization" = Some ["Token tok-2"].
Proof.
  intros E t.
  destruct (@Book_sends_when_checks_pass E logged_in t 0 None []
              [EvPrintln t]
              (fst (@Book_payload E t 0 None [EvPrintln t]))
              (match ref_jsonifyPayload
                       (fst (@Book_payload E t 0 None [EvPrintln t])) with
               | inr d => d
               | inl _ => ""
               end)
              bookingURL eq_refl eq_refl)
    as (r & Htr & _ & Hm & _ & _ & Ha); try reflexivity.
  - vm_compute. discriminate.
  - exists r. exact (conj Htr (conj Hm Ha)).
Defined.

(** ** What [req] leaves alone *)

(** X13.  [req] sends the request it was given with its method, address and
    body unchanged and hands it to the transport exactly once.  It always
    sets [User-Agent] to the package's user agent, replacing any value the
    request had, and keeps every header outside the six keys it may write.
    A call that is not authenticated keeps the [Authorization] the request
    had, and a request to the card endpoint keeps its vendor headers. *)
Theorem req_keeps_the_rest `{Env} {T} `{!responseParams T, !Unmarshal T}
    (c : Client.t) (r : Request.t) (auth : bool) (obj : T)
    (tr : list event) :
  let sent := outbound c r auth in
  let h := Request.Header_ sent in
  requests (snd (req c r auth obj tr)) = sent :: requests tr
  /\ Request.Method sent = Request.Method r
  /\ Request.URL sent = Request.URL r
  /\ Request.Body_ sent = Request.Body_ r
  /\ h !! "User-Agent" = Some [UserAgent]
  /\ (forall k, k ∉ req_keys -> h !! k = Request.Header_ r !! k)
  /\ (auth = false ->
      h !! "Authorization" = Request.Header_ r !! "Authorization")
  /\ (Request.URL r = cardURL ->
      h !! "FIXR-Platform" = Request.Header_ r !! "FIXR-Platform"
      /\ h !! "FIXR-Platform-Version"
         = Request.Header_ r !! "FIXR-Platform-Version"
      /\ h !! "FIXR-App-Version" = Request.Header_ r !! "FIXR-App-Version").
Proof.
  intros sent h. subst h sent.
  split; [by rewrite req_run|]. do 3 (split; [reflexivity|]).
  split; [apply outbound_User_Agent|].
  split; [|split].
  - intros k Hk.
    assert (k <> "User-Agent" /\ k <> "Authorization" /\ k <> "Content-Type"
            /\ k <> "FIXR-Platform" /\ k <> "FIXR-Platform-Version"
            /\ k <> "FIXR-App-Version") as (H1 & H2 & H3 & H4 & H5 & H6).
    { unfold req_keys in Hk. repeat split; intros ->; apply Hk; set_solver. }
    unfold outbound. cbn [Request_set_Header Request.Header_].
    rewrite req_headers_run. cbn zeta.
    destruct (String.eqb (Request.URL r) cardURL), auth; by simplify_map_eq.
  - intros ->. by rewrite outbound_Authorization.
  - intros Hcard.
    unfold outbound. cbn [Request_set_Header Request.Header_].
    rewrite req_headers_run. cbn zeta.
    rewrite (proj2 (String.eqb_eq _ _) Hcard).
    destruct auth; repeat split; by simplify_map_eq.
Qed.

Lemma req_keeps_the_rest_witness :
  let E := refEnv true false [] in
  let r := Request.mk "POST" cardURL
             (<["Accept" := ["*/*"]]> (<["User-Agent" := ["curl"]]> ∅))
             (Some "card=1") in
  let h := Request.Header_ (@outbound E logged_in r false) in
  h !! "Accept" = Some ["*/*"]
  /\ h !! "Authorization" = None
  /\ h !! "FIXR-Platform" = None
  /\ h !! "User-Agent" = Some [@UserAgent E].
Proof.
  intros E r h.
  destruct (@req_keeps_the_rest E Booking.t _ _ logged_in r false
              Booking_zero [])
    as (_ & _ & _ & _ & Hua & Hother & Hauth & Hcard).
  refine (conj (Hother "Accept" _)
            (conj (Hauth eq_refl)
               (conj (proj1 (Hcard eq_refl)) Hua))).
  apply (bool_decide_unpack _). vm_compute. exact I.
Defined.

(** ** How failures come back *)

(** X14.  A booking answer is judged by its own [message] only: when it
    parses and its message is empty, [Book] returns the booking with a nil
    error whatever [detail] the nested event carries, and that detail is
    returned as it was decoded, neither reported nor cleared. *)
Theorem Book_ignores_nested_event_detail `{Env} (c : Client.t)
    (ticket : Ticket.t) (amount : Z) (promo : option PromoCode.t)
    (tr tr1 : list event) (pl : payload) (data : Buffer) (u : string)
    (body : Body) (b : Booking.t) :
  Ticket.SoldOut ticket = false -> Ticket.Expired ticket = false ->
  amount <= Ticket.Max ticket ->
  Book_payload ticket amount promo (EvPrintln ticket :: tr) = (pl, tr1) ->
  jsonifyPayload pl = inr data ->
  url_String bookingURL = Some u ->
  http_Do tr1 (outbound c (Request.mk "POST" u ∅ (Some data)) true)
    = inr body ->
  Decode_Booking body Booking_zero = (b, None) ->
  apiError.Error (Booking.apiError_ b) = "" ->
  exists b',
    fst (Book c ticket amount promo tr) = (Some b', None)
    /\ Event.Error (Booking.Event_ b') = Event.Error (Booking.Event_ b)
    /\ error (Booking.Event_ b') = error (Booking.Event_ b).
Proof.
  intros Hs He Hle Hpl Hj Hu Hdo Hdec Hmsg.
  rewrite (Book_checks_passed c ticket amount promo tr Hs He Hle).
  rewrite Hpl, Hj, post_run, Hu.
  rewrite (req_parsed c _ true Booking_zero b tr1 body Hdo Hdec).
  change (error b) with (error (Booking.apiError_ b)).
  rewrite apiError_error_spec, Hmsg. cbn.
  eexists. split; [reflexivity|]. done.
Qed.

Lemma Book_ignores_nested_event_detail_witness :
  let E := refEnv true false [inr booking_with_event_detail] in
  let t := ticket_of 10 1 3 false false in
  exists b',
    fst (@Book E logged_in t 2 None []) = (Some b', None)
    /\ Event.Error (Booking.Event_ b') = "Not found."
    /\ error (Booking.Event_ b') = Some (errors_New "Not found.").
Proof.
  intros E t.
  destruct (@Book_ignores_nested_event_detail E logged_in t 2 None []
              [EvGenKey "key-0"; EvPrintln t]
              (fst (@Book_payload E t 2 None [EvPrintln t]))
              (match ref_jsonifyPayload
                       (fst (@Book_payload E t 2 None [EvPrintln t])) with
               | inr d => d
               | inl _ => ""
               end)
              bookingURL booking_with_event_detail
              (Booking.mk apiError_zero (Event.mk 42 "" [] "Not found.")
                 "Ann Lee" "" 0)
              eq_refl eq_refl)
    as (b' & Hb & Hdetail & Herr); try reflexivity.
  - vm_compute. discriminate.
  - exists b'. exact (conj Hb (conj Hdetail Herr)).
Defined.

(** X15.  When the answer to [Event] does not decode, the decoder's error is
    what comes back, under the two tags, and no event: the [detail] the
    decoder may already have stored is not reported. *)
Theorem Event_decode_failure `{Env} (c : Client.t) (id : Z)
    (tr : list event) (u : string) (body : Body) (ev : Event.t) (e : err) :
  url_String (eventURL id) = Some u ->
  http_Do tr (outbound c (Request.mk "GET" u ∅ None) false) = inr body ->
  Decode_Event body Event_zero = (ev, Some e) ->
  fst (Event c id tr)
  = (None,
     Some (errors_Wrap (errors_Wrap e "JSON decoding failed")
             "error getting event"))
  /\ Error_string (errors_Wrap (errors_Wrap e "JSON decoding failed")
                     "error getting event")
     = "error getting event: JSON decoding failed: " +:+ Error_string e.
Proof.
  intros Hu Hdo Hdec. split; [|reflexivity].
  rewrite Event_run, get_run, Hu, req_run, Hdo.
  by rewrite (decodeJSONResponse_failed body Event_zero ev e Hdec).
Qed.

Lemma Event_decode_failure_witness :
  let E := refEnv true false [inr event_ill_typed] in
  let e := UnmarshalTypeError (JStr "forty-two") "Event.id" "int" in
  @Decode_Event E event_ill_typed Event_zero
  = (Event.mk 0 "" [] "Not found.", Some e)
  /\ fst (@Event E logged_in 42 [])
     = (None,
        Some (errors_Wrap (errors_Wrap e "JSON decoding failed")
                "error getting event")).
Proof.
  intros E e.
  refine (conj eq_refl
            (proj1 (@Event_decode_failure E logged_in 42 [] (eventURL 42)
                      event_ill_typed (Event.mk 0 "" [] "Not found.") e
                      eq_refl eq_refl eq_refl))).
Defined.

(** X16.  When the transport fails on the request of a booking, [Book]
    returns no booking and the transport's error under the two tags; the
    request has been handed to the transport once and is not sent again. *)
Theorem Book_transport_failure `{Env} (c : Client.t) (ticket : Ticket.t)
    (amount : Z) (promo : option PromoCode.t) (tr tr1 : list event)
    (pl : payload) (data : Buffer) (u : string) (e : err) :
  Ticket.SoldOut ticket = false -> Ticket.Expired ticket = false ->
  amount <= Ticket.Max ticket ->
  Book_payload ticket amount promo (EvPrintln ticket :: tr) = (pl, tr1) ->
  jsonifyPayload pl = inr data ->
  url_String bookingURL = Some u ->
  http_Do tr1 (outbound c (Request.mk "POST" u ∅ (Some data)) true) = inl e ->
  let failure :=
    errors_Wrap (errors_Wrap e "error executing request")
      "error booking ticket" in
  fst (Book c ticket amount promo tr) = (None, Some failure)
  /\ Error_string failure
     = "error booking ticket: error executing request: " +:+ Error_string e
  /\ requests (snd (Book c ticket amount promo tr))
     = outbound c (Request.mk "POST" u ∅ (Some data)) true :: requests tr.
Proof.
  intros Hs He Hle Hpl Hj Hu Hdo failure. subst failure.
  rewrite (Book_checks_passed c ticket amount promo tr Hs He Hle).
  rewrite Hpl, Hj, post_run, Hu, req_run, Hdo. cbn [fst snd].
  split; [reflexivity|]. split; [reflexivity|].
  rewrite requests_cons_Do. f_equal.
  pose proof (Book_payload_requests ticket amount promo (EvPrintln ticket :: tr))
    as Hreq.
  by rewrite Hpl in Hreq.
Qed.

Lemma Book_transport_failure_witness :
  let E := refEnv true false [] in
  let t := ticket_of 10 1 3 false false in
  fst (@Book E logged_in t 2 None [])
  = (None,
     Some (errors_Wrap
             (errors_Wrap (errors_New "dial tcp: connection refused")
                "error executing request")
             "error booking ticket"))
  /\ length (requests (snd (@Book E logged_in t 2 None []))) = 1%nat.
Proof.
  intros E t.
  destruct (@Book_transport_failure E logged_in t 2 None []
              [EvGenKey "key-0"; EvPrintln t]
              (fst (@Book_payload E t 2 None [EvPrintln t]))
              (match ref_jsonifyPayload
                       (fst (@Book_payload E t 2 None [EvPrintln t])) with
               | inr d => d
               | inl _ => ""
               end)
              bookingURL (errors_New "dial tcp: connection refused")
              eq_refl eq_refl)
    as (Hres & _ & Hreq); try reflexivity.
  - vm_compute. discriminate.
  - split; [exact Hres|]. by rewrite Hreq.
Defined.

(** ** No retries, and what of the client is used *)

(** X17.  No operation retries: [Logon], [Event], [Promo] and [Book] each
    hand at most one request to the transport, whatever comes back. *)
Theorem operations_send_at_most_one_request `{Env} (c : Client.t)
    (tr : list event) :
  (forall pass,
     requests (snd (Logon c pass tr)) = requests tr
     \/ exists r, requests (snd (Logon c pass tr)) = r :: requests tr)
  /\ (forall id,
        requests (snd (Event c id tr)) = requests tr
        \/ exists r, requests (snd (Event c id tr)) = r :: requests tr)
  /\ (forall ticketID code,
        requests (snd (Promo c ticketID code tr)) = requests tr
        \/ exists r,
             requests (snd (Promo c ticketID code tr)) = r :: requests tr)
  /\ (forall ticket amount promo,
        requests (snd (Book c ticket amount promo tr)) = requests tr
        \/ exists r,
             requests (snd (Book c ticket amount promo tr))
             = r :: requests tr).
Proof.
  split; [|split; [|split]].
  - intros pass. rewrite Logon_trace.
    destruct (jsonifyPayload (Logon_payload c pass)) as [e|data]; [by left|].
    rewrite post_trace. destruct (url_String loginURL); [|by left].
    right. by eexists.
  - intros id. rewrite Event_trace, get_trace.
    destruct (url_String (eventURL id)); [|by left]. right. by eexists.
  - intros ticketID code. rewrite Promo_trace, get_trace.
    destruct (url_String (promoURL ticketID code)); [|by left].
    right. by eexists.
  - intros ticket amount promo.
    assert (Hfail :
      Ticket.SoldOut ticket = true \/ Ticket.Expired ticket = true
      \/ amount > Ticket.Max ticket ->
      requests (snd (Book c ticket amount promo tr)) = requests tr).
    { intros Hc. by rewrite (Book_check_failed c ticket amount promo tr Hc). }
    destruct (Ticket.SoldOut ticket) eqn:Hs; [left; apply Hfail; auto|].
    destruct (Ticket.Expired ticket) eqn:He; [left; apply Hfail; auto|].
    destruct (Z.le_gt_cases amount (Ticket.Max ticket)) as [Hle|Hgt];
      [|left; apply Hfail; right; right; lia].
    rewrite (Book_checks_passed c ticket amount promo tr Hs He Hle).
    pose proof (Book_payload_requests ticket amount promo
                  (EvPrintln ticket :: tr)) as Hreq.
    destruct (Book_payload ticket amount promo (EvPrintln ticket :: tr))
      as [pl tr1].
    cbn [snd] in Hreq. change (requests (EvPrintln ticket :: tr))
      with (requests tr) in Hreq.
    destruct (jsonifyPayload pl) as [e|data]; [by left|].
    pose proof (post_trace c bookingURL data true Booking_zero tr1) as Htr.
    destruct (post c bookingURL data true Booking_zero tr1) as [[b e] tr2].
    cbn [snd] in Htr |- *. subst tr2.
    destruct (url_String bookingURL); [|by left].
    right. rewrite requests_cons_Do, Hreq. by eexists.
Qed.

(** X18.  Of the client, [Promo] and [Book] use the [AuthToken] and nothing
    else: two clients with the same token, whatever their e-mail, names and
    profile, get the same result and leave the same trace. *)
Theorem authenticated_calls_only_use_token `{Env} (c1 c2 : Client.t)
    (tr : list event) :
  Client.AuthToken c1 = Client.AuthToken c2 ->
  (forall ticketID code,
     Promo c1 ticketID code tr = Promo c2 ticketID code tr)
  /\ (forall ticket amount promo,
        Book c1 ticket amount promo tr = Book c2 ticket amount promo tr).
Proof.
  intros Htok.
  assert (Hout : forall r, outbound c1 r true = outbound c2 r true).
  { intros r. unfold outbound, req_headers. by rewrite Htok. }
  split.
  - intros ticketID code. rewrite !Promo_run, !get_run.
    destruct (url_String (promoURL ticketID code)); [|reflexivity].
    by rewrite !req_run, Hout.
  - intros ticket amount promo.
    assert (Hpost : forall data tr1,
              post c1 bookingURL data true Booking_zero tr1
              = post c2 bookingURL data true Booking_zero tr1).
    { intros data tr1. rewrite !post_run.
      destruct (url_String bookingURL); [|reflexivity].
      by rewrite !req_run, Hout. }
    unfold Book. run. rewrite Book_range.
    destruct (Ticket.SoldOut ticket || Ticket.Expired ticket); [reflexivity|].
    destruct (amount >? Ticket.Max ticket); [reflexivity|].
    destruct (Book_payload ticket amount promo (EvPrintln ticket :: tr))
      as [pl tr1].
    destruct (jsonifyPayload pl) as [e|data]; [reflexivity|].
    by rewrite Hpost.
Qed.

Lemma authenticated_calls_only_use_token_witness :
  let E := refEnv true false [inr booking_made] in
  let t := ticket_of 10 1 3 false false in
  @Book E logged_in t 2 None [] = @Book E same_token t 2 None [].
Proof.
  intros E t.
  exact (proj2 (@authenticated_calls_only_use_token E logged_in same_token []
                  eq_refl) t 2 None).
Defined.

(** X19.  An error of [Event] or of [Promo] is the error the dispatcher
    returned, under the tag of the operation: its message is the tag, a colon
    and a space, followed by the message of the dispatcher's error. *)
Theorem lookup_error_messages `{Env} (c : Client.t) (tr : list event) :
  (forall id e,
     snd (fst (Event c id tr)) = Some e ->
     exists cause,
       snd (fst (get c (eventURL id) false Event_zero tr)) = Some cause
       /\ e = errors_Wrap cause "error getting event"
       /\ Error_string e = "error getting event: " +:+ Error_string cause
       /\ String.prefix "error getting event: " (Error_string e) = true)
  /\ (forall ticketID code e,
        snd (fst (Promo c ticketID code tr)) = Some e ->
        exists cause,
          snd (fst (get c (promoURL ticketID code) true PromoCode_zero tr))
          = Some cause
          /\ e = errors_Wrap cause "error getting promo code"
          /\ Error_string e
             = "error getting promo code: " +:+ Error_string cause
          /\ String.prefix "error getting promo code: " (Error_string e)
             = true).
Proof.
  split.
  - intros id e. rewrite Event_run.
    destruct (get c (eventURL id) false Event_zero tr) as [[ev [e'|]] tr'];
      cbn [fst snd]; [|discriminate].
    intros [= <-]. exists e'. do 3 (split; [reflexivity|]).
    apply (prefix_app "error getting event: " (Error_string e')).
  - intros ticketID code e. rewrite Promo_run.
    destruct (get c (promoURL ticketID code) true PromoCode_zero tr)
      as [[p [e'|]] tr']; cbn [fst snd]; [|discriminate].
    intros [= <-]. exists e'. do 3 (split; [reflexivity|]).
    apply (prefix_app "error getting promo code: " (Error_string e')).
Qed.

Lemma lookup_error_messages_witness :
  let E := refEnv true false [inr event_missing] in
  let e := errors_Wrap (errors_New "Not found.") "error getting event" in
  snd (fst (@Event E logged_in 42 [])) = Some e
  /\ exists cause,
       snd (fst (@get E Event.t _ _ logged_in (eventURL 42) false Event_zero
                   []))
       = Some cause
       /\ e = errors_Wrap cause "error getting event"
       /\ Error_string e = "error getting event: " +:+ Error_string cause
       /\ String.prefix "error getting event: " (Error_string e) = true.
Proof.
  intros E e. split; [reflexivity|].
  exact (proj1 (@lookup_error_messages E logged_in []) 42 e eq_refl).
Defined.
